(** * Recognition ticker: feed loader, ticker controller and card initials

  A shallow embedding of the recognition-feed widget:
  - [getBonuses] (services/bonusly): paginated fetch, region filter and
    reshaping of the raw API records;
  - [RecognitionTicker]: the scroll-offset state machine driven by
    animation frames, the display list and the transition style;
  - [getInitials] (RecognitionCard): avatar-fallback initials.

  The frame callback's arithmetic is modelled twice.  [Frame64] has it in
  IEEE binary64, the numbers of the language, operation by operation; what
  is stated about the value of the offset is stated there.  [Ticker] has
  the whole component, with its effects and the browser's callbacks, over
  the rationals ([Q]); what is stated there concerns scheduling, resets and
  comparisons with 0, and every concrete scenario uses small integers, on
  which binary64 arithmetic is exact. *)

From Stdlib Require Import List String Ascii Bool Arith ZArith QArith Lia Lqa Floats.
Import ListNotations.

Local Open Scope string_scope.
Local Open Scope list_scope.

(** ** Data model *)

(** [interface User] of the rewards API (services/bonusly). *)
Module User.
Record custom_properties_t := {
  department : string;
  location : string;
  role : string;
  employment_status : option string
}.
Record t := {
  display_name : string;
  email : string;
  country : string;
  custom_properties : custom_properties_t;
  manager_email : string;
  profile_pic_url : string
}.
End User.

(** [interface BonusResult]: one raw record of a page. *)
Module BonusResult.
Record t := {
  amount : Z;
  giver : User.t;
  receiver : User.t;
  reason : string;
  reason_decoded : string;
  created_at : string
}.
End BonusResult.

(** [interface Person] as used by the ticker and the card. *)
Module Person.
Record t := {
  name : string;
  email : string;
  department : string;
  profile_pic_url : string
}.
End Person.

(** [interface Recognition]. *)
Module Recognition.
Record t := {
  amount : Z;
  reason_decoded : string;
  giver : Person.t;
  receiver : Person.t
}.
End Recognition.

(** ** Feed loader: [getBonuses] *)

Module FeedLoader.

(** The body of one page response: [{ success, result }]. *)
Record Response := {
  success : bool;
  result : list BonusResult.t
}.

(** [listBonuses] with [limit = 100], [include_children = false] and the
    run's [start_time]: what the remote API answers for a given [skip].
    The loop asks for each [skip] at most once, so a function of [skip]
    covers every behaviour of the server during one run. *)
Definition Api := Z -> Response.

(** How an execution of an [async] function ends.  [Pending] is the loop
    still running when the fuel of the model is used up. *)
Inductive Outcome (A : Type) : Type :=
| Returned (a : A)
| Thrown (msg : string)
| Pending.
Arguments Returned {A} a.
Arguments Thrown {A} msg.
Arguments Pending {A}.

(** A run: the [skip] values requested, in order, and the outcome. *)
Record Run (A : Type) := {
  requests : list Z;
  outcome : Outcome A
}.
Arguments requests {A} r.
Arguments outcome {A} r.

(** The [while (true)] loop of [getBonuses], one iteration per unit of
    fuel; [results] is the array pushed to, [skip] the loop variable. *)
Fixpoint collect (fuel : nat) (listBonuses : Api) (skip : Z)
         (results : list BonusResult.t) : Run (list BonusResult.t) :=
  match fuel with
  | O => {| requests := []; outcome := Pending |}
  | S fuel' =>
      let responseData := listBonuses skip in
      if negb (success responseData) then
        {| requests := [skip]; outcome := Thrown "failed to fetch bonuses" |}
      else
        let data := result responseData in
        if (0 <? List.length data)%nat then
          let rest := collect fuel' listBonuses (skip + 100) (results ++ data) in
          {| requests := skip :: requests rest; outcome := outcome rest |}
        else
          {| requests := [skip]; outcome := Returned results |}
  end.

(** The flattening of a raw user into a [Person]. *)
Definition person_of (u : User.t) : Person.t :=
  {| Person.name := User.display_name u;
     Person.email := User.email u;
     Person.department := User.department (User.custom_properties u);
     Person.profile_pic_url := User.profile_pic_url u |}.

(** The callback of [.map]. *)
Definition reshape (b : BonusResult.t) : Recognition.t :=
  {| Recognition.amount := BonusResult.amount b;
     Recognition.reason_decoded := BonusResult.reason_decoded b;
     Recognition.giver := person_of (BonusResult.giver b);
     Recognition.receiver := person_of (BonusResult.receiver b) |}.

(** The callback of [.filter]: [b.receiver.country === "BD"]. *)
Definition receiver_in_BD (b : BonusResult.t) : bool :=
  String.eqb (User.country (BonusResult.receiver b)) "BD".

(** The [return results.filter(...).map(...)] stage. *)
Definition filter_reshape (results : list BonusResult.t) : list Recognition.t :=
  map reshape (filter receiver_in_BD results).

(** [getBonuses]: collect from [skip = 0] into an empty array, then filter
    and reshape. *)
Definition getBonuses (fuel : nat) (listBonuses : Api) : Run (list Recognition.t) :=
  let r := collect fuel listBonuses 0 [] in
  {| requests := requests r;
     outcome := match outcome r with
                | Returned results => Returned (filter_reshape results)
                | Thrown msg => Thrown msg
                | Pending => Pending
                end |}.

(** The records a caller gets hold of. *)
Definition records_of {A : Type} (o : Outcome (list A)) : option (list A) :=
  match o with
  | Returned rs => Some rs
  | _ => None
  end.

(** The skips [start, start + 100, ...], [n] of them. *)
Fixpoint skips (start : Z) (n : nat) : list Z :=
  match n with
  | O => []
  | S n' => start :: skips (start + 100) n'
  end.

(** The pages at those skips, concatenated in request order. *)
Fixpoint pages (listBonuses : Api) (start : Z) (n : nat) : list BonusResult.t :=
  match n with
  | O => []
  | S n' => result (listBonuses start) ++ pages listBonuses (start + 100) n'
  end.

(** The first [n] pages from [start] are successful and non-empty. *)
Fixpoint full_pages (listBonuses : Api) (start : Z) (n : nat) : Prop :=
  match n with
  | O => True
  | S n' => success (listBonuses start) = true
            /\ result (listBonuses start) <> []
            /\ full_pages listBonuses (start + 100) n'
  end.

End FeedLoader.

(** ** The page component's load cycle ([Index], [fetchRecognitions]) *)

Module Index.
Import FeedLoader.

Record State := {
  recognitions : list Recognition.t;
  loading : bool;
  error : option string
}.

(** [useState([])], [useState(true)], [useState(null)]. *)
Definition initial : State :=
  {| recognitions := []; loading := true; error := None |}.

(** [fetchRecognitions]: [try { ... await getBonuses() ... } catch ...]. *)
Definition fetchRecognitions (o : Outcome (list Recognition.t)) (st : State) : State :=
  match o with
  | Returned rs =>
      {| recognitions := rs; loading := false; error := error st |}
  | Thrown _ =>
      {| recognitions := recognitions st; loading := false;
         error := Some "Failed to load recognitions" |}
  | Pending => st
  end.
End Index.

(** ** Ticker controller: [RecognitionTicker] *)

Module Ticker.

(** What [animate] captures from the render in which the animation effect
    ran: the [speed] prop and the [contentHeight] state. *)
Record Closure := {
  c_speed : Q;
  c_contentHeight : Q
}.

(** The component instance together with the browser's list of registered
    frame callbacks.  The root [div] is rendered unconditionally, so
    [containerRef.current] is attached whenever an effect or a listener
    runs. *)
Record State := {
  recognitions : list Recognition.t;   (* prop *)
  speed : Q;                           (* prop, pixels per second *)
  scrollPosition : Q;                  (* useState(0) *)
  containerHeight : Q;                 (* useState(0) *)
  contentHeight : Q;                   (* useState(0) *)
  animationRef : option nat;           (* useRef<number>() *)
  lastTimeRef : option Q;              (* useRef<number>() *)
  cleanup : bool;                      (* the animation effect returned its cleanup *)
  frames : list (nat * Closure);       (* browser: callbacks awaiting the next frame *)
  next_handle : nat                    (* browser: next requestAnimationFrame handle *)
}.

Definition set_recognitions (v : list Recognition.t) (st : State) : State :=
  Build_State v (speed st) (scrollPosition st) (containerHeight st)
    (contentHeight st) (animationRef st) (lastTimeRef st) (cleanup st)
    (frames st) (next_handle st).

Definition set_speed (v : Q) (st : State) : State :=
  Build_State (recognitions st) v (scrollPosition st) (containerHeight st)
    (contentHeight st) (animationRef st) (lastTimeRef st) (cleanup st)
    (frames st) (next_handle st).

Definition setScrollPosition (v : Q) (st : State) : State :=
  Build_State (recognitions st) (speed st) v (containerHeight st)
    (contentHeight st) (animationRef st) (lastTimeRef st) (cleanup st)
    (frames st) (next_handle st).

Definition setContainerHeight (v : Q) (st : State) : State :=
  Build_State (recognitions st) (speed st) (scrollPosition st) v
    (contentHeight st) (animationRef st) (lastTimeRef st) (cleanup st)
    (frames st) (next_handle st).

Definition setContentHeight (v : Q) (st : State) : State :=
  Build_State (recognitions st) (speed st) (scrollPosition st)
    (containerHeight st) v (animationRef st) (lastTimeRef st) (cleanup st)
    (frames st) (next_handle st).

Definition set_animationRef (v : option nat) (st : State) : State :=
  Build_State (recognitions st) (speed st) (scrollPosition st)
    (containerHeight st) (contentHeight st) v (lastTimeRef st) (cleanup st)
    (frames st) (next_handle st).

Definition set_lastTimeRef (v : option Q) (st : State) : State :=
  Build_State (recognitions st) (speed st) (scrollPosition st)
    (containerHeight st) (contentHeight st) (animationRef st) v (cleanup st)
    (frames st) (next_handle st).

Definition set_cleanup (v : bool) (st : State) : State :=
  Build_State (recognitions st) (speed st) (scrollPosition st)
    (containerHeight st) (contentHeight st) (animationRef st)
    (lastTimeRef st) v (frames st) (next_handle st).

Definition set_frames (v : list (nat * Closure)) (st : State) : State :=
  Build_State (recognitions st) (speed st) (scrollPosition st)
    (containerHeight st) (contentHeight st) (animationRef st)
    (lastTimeRef st) (cleanup st) v (next_handle st).

Definition set_next_handle (v : nat) (st : State) : State :=
  Build_State (recognitions st) (speed st) (scrollPosition st)
    (containerHeight st) (contentHeight st) (animationRef st)
    (lastTimeRef st) (cleanup st) (frames st) v.

(** [requestAnimationFrame(animate)]: registers the callback and hands out
    a fresh handle. *)
Definition requestAnimationFrame (c : Closure) (st : State) : nat * State :=
  let h := next_handle st in
  (h, set_next_handle (S h) (set_frames (frames st ++ [(h, c)]) st)).

(** [cancelAnimationFrame(h)]. *)
Definition cancelAnimationFrame (h : nat) (st : State) : State :=
  set_frames (filter (fun f => negb (Nat.eqb (fst f) h)) (frames st)) st.

(** [lastTimeRef.current] read as a condition: [undefined] and [0] are
    falsy. *)
Definition truthy (r : option Q) : bool :=
  match r with
  | Some q => negb (Qeq_bool q 0)
  | None => false
  end.

(** [lastTimeRef.current] once [animate] has set it to [timestamp] in case
    it was falsy. *)
Definition last_time (timestamp : Q) (st : State) : Q :=
  match lastTimeRef st with
  | Some l => if truthy (Some l) then l else timestamp
  | None => timestamp
  end.

(** [delta = timestamp - lastTimeRef.current]. *)
Definition delta (timestamp : Q) (st : State) : Q :=
  timestamp - last_time timestamp st.

(** [pixelsToScroll = (speed / 1000) * delta], here without rounding;
    [Frame64.pixelsToScroll] has the binary64 operations. *)
Definition pixelsToScroll (c : Closure) (timestamp : Q) (st : State) : Q :=
  (c_speed c / 1000) * delta timestamp st.

(** The test of the updater passed to [setScrollPosition]:
    [prevPosition >= contentHeight]. *)
Definition wraps (c : Closure) (st : State) : bool :=
  Qle_bool (c_contentHeight c) (scrollPosition st).

(** The frame callback [animate]. *)
Definition animate (c : Closure) (timestamp : Q) (st : State) : State :=
  let px := pixelsToScroll c timestamp st in
  let st1 :=
    setScrollPosition
      (if wraps c st then 0 else scrollPosition st + px) st in
  let st2 := set_lastTimeRef (Some timestamp) st1 in
  let (h, st3) := requestAnimationFrame c st2 in
  set_animationRef (Some h) st3.

(** The body of the animation effect; it returns early, without a cleanup,
    when the content fits. *)
Definition animation_effect (st : State) : State :=
  if Qle_bool (contentHeight st) (containerHeight st) then
    set_cleanup false st
  else
    let c := {| c_speed := speed st; c_contentHeight := contentHeight st |} in
    let (h, st1) := requestAnimationFrame c st in
    set_cleanup true (set_animationRef (Some h) st1).

(** The cleanup returned by the animation effect, when there is one. *)
Definition animation_cleanup (st : State) : State :=
  if cleanup st then
    match animationRef st with
    | Some h => if Nat.eqb h 0 then st else cancelAnimationFrame h st
    | None => st
    end
  else st.

(** The dependency array [contentHeight, containerHeight, speed] compared
    between the previous render [old] and the new one. *)
Definition deps_changed (old new : State) : bool :=
  negb (Qeq_bool (contentHeight old) (contentHeight new)
        && Qeq_bool (containerHeight old) (containerHeight new)
        && Qeq_bool (speed old) (speed new)).

(** A re-render: the animation effect is torn down and run again when one
    of its dependencies changed. *)
Definition commit (old new : State) : State :=
  if deps_changed old new then animation_effect (animation_cleanup new)
  else new.

(** [updateDimensions], given what the container measures. *)
Definition updateDimensions (clientHeight scrollHeight : Q) (st : State) : State :=
  commit st (setContentHeight scrollHeight (setContainerHeight clientHeight st)).

(** The state of the first render, whose effects see both heights at 0. *)
Definition initial (rs : list Recognition.t) (s : Q) : State :=
  {| recognitions := rs; speed := s; scrollPosition := 0;
     containerHeight := 0; contentHeight := 0;
     animationRef := None; lastTimeRef := None; cleanup := false;
     frames := []; next_handle := 1 |}.

(** Mounting: the first effect measures the container. *)
Definition mount (rs : list Recognition.t) (s clientHeight scrollHeight : Q) : State :=
  updateDimensions clientHeight scrollHeight (animation_effect (initial rs s)).

(** What happens to a mounted ticker. *)
Inductive Event :=
| Frame (timestamp : Q)
| Resize (clientHeight scrollHeight : Q)
| SetRecognitions (rs : list Recognition.t) (clientHeight scrollHeight : Q)
| SetSpeed (s : Q).

(** The browser presents a frame: the callbacks registered so far are
    taken off the list and called with the frame's timestamp. *)
Definition run_frame (timestamp : Q) (st : State) : State :=
  fold_left (fun s f => animate (snd f) timestamp s) (frames st)
            (set_frames [] st).

Definition step (e : Event) (st : State) : State :=
  match e with
  | Frame timestamp => run_frame timestamp st
  | Resize clientHeight scrollHeight =>
      updateDimensions clientHeight scrollHeight st
  | SetRecognitions rs clientHeight scrollHeight =>
      updateDimensions clientHeight scrollHeight (set_recognitions rs st)
  | SetSpeed s => commit st (set_speed s st)
  end.

Definition run (events : list Event) (st : State) : State :=
  fold_left (fun s e => step e s) events st.

(** What the environment guarantees: frame timestamps do not go back, and
    the speed is not negative. *)
Definition admissible (st : State) (e : Event) : Prop :=
  match e with
  | Frame timestamp =>
      match lastTimeRef st with
      | Some l => l <= timestamp
      | None => True
      end
  | SetSpeed s => 0 <= s
  | _ => True
  end.

Inductive reachable : State -> Prop :=
| reachable_mount rs s clientHeight scrollHeight :
    0 <= s -> reachable (mount rs s clientHeight scrollHeight)
| reachable_step st e :
    reachable st -> admissible st e -> reachable (step e st).

(** The [transition] style of the scrolled [div]. *)
Inductive Transition := TransitionNone | TransformLinear.

Definition transition (st : State) : Transition :=
  if Qeq_bool (scrollPosition st) 0 then TransitionNone else TransformLinear.

(** [Array.prototype.slice] for indices within [0, length]. *)
Definition slice {A : Type} (start end_ : nat) (l : list A) : list A :=
  firstn (end_ - start) (skipn start l).

Definition duplicateCount (rs : list Recognition.t) : nat :=
  Nat.min 3 (List.length rs).

Definition displayRecognitions (rs : list Recognition.t) : list Recognition.t :=
  rs ++ slice 0 (duplicateCount rs) rs.

(** No frame callback is registered: the animation effect returned early. *)
Definition idle (st : State) : Prop :=
  frames st = [] /\ cleanup st = false
  /\ contentHeight st <= containerHeight st.

(** Exactly one frame callback is registered, the one [animationRef] names,
    and it captured the current speed and content height. *)
Definition animating (st : State) : Prop :=
  exists (h : nat) (c : Closure),
    frames st = [(h, c)] /\ animationRef st = Some h
    /\ (0 < h < next_handle st)%nat /\ cleanup st = true
    /\ c_speed c == speed st /\ c_contentHeight c == contentHeight st
    /\ containerHeight st < contentHeight st.

Definition invariant (st : State) : Prop :=
  0 <= speed st /\ 0 <= scrollPosition st /\ (0 < next_handle st)%nat
  /\ (idle st \/ animating st).

(** Two states render the same: they differ at most in the registered
    callbacks and their bookkeeping. *)
Definition same_view (st st' : State) : Prop :=
  recognitions st' = recognitions st /\ speed st' = speed st
  /\ scrollPosition st' = scrollPosition st
  /\ containerHeight st' = containerHeight st
  /\ contentHeight st' = contentHeight st
  /\ lastTimeRef st' = lastTimeRef st.

(** None of the callbacks registered in [st] is registered in [st']. *)
Definition cancelled (st st' : State) : Prop :=
  forall f : nat * Closure,
    In f (frames st) -> ~ In (fst f) (map fst (frames st')).

(** An event after which the content fits in the container, as far as the
    event measures it. *)
Definition fits (e : Event) : Prop :=
  match e with
  | Resize clientHeight scrollHeight => scrollHeight <= clientHeight
  | SetRecognitions _ clientHeight scrollHeight => scrollHeight <= clientHeight
  | _ => True
  end.

(** What [updateDimensions] measures in the course of an event. *)
Definition measured (e : Event) : option (Q * Q) :=
  match e with
  | Resize clientHeight scrollHeight => Some (clientHeight, scrollHeight)
  | SetRecognitions _ clientHeight scrollHeight =>
      Some (clientHeight, scrollHeight)
  | _ => None
  end.

(** Nothing is registered, nothing was ever scrolled. *)
Definition quiet (st : State) : Prop :=
  idle st /\ scrollPosition st = 0 /\ (0 < next_handle st)%nat.

(** A ticker at 1000 px/s whose container of height 5 shows content of
    height 10. *)
Definition overflowing : State := mount [] 1000 5 10.

(** The first frame at 1 ms, the second 16 ms later. *)
Definition overshot : State := run [Frame 1; Frame 17] overflowing.

(** Two frames 1 ms apart. *)
Definition scrolled : State := run [Frame 1; Frame 2] overflowing.

(** After scrolling, the container grows to the height of the content. *)
Definition refitted : State := step (Resize 10 10) scrolled.

(** After scrolling, the content grows to height 20. *)
Definition restarted : State := step (Resize 5 20) scrolled.

End Ticker.

(** ** Card renderer: [getInitials] *)

Module Card.

(** [s.split(sep)] for a one-character separator. *)
Fixpoint split (sep : ascii) (s : string) : list string :=
  match s with
  | EmptyString => [EmptyString]
  | String c s' =>
      if Ascii.eqb c sep then EmptyString :: split sep s'
      else match split sep s' with
           | w :: ws => String c w :: ws
           | [] => [String c EmptyString]
           end
  end.

(** [n[0]]: [undefined] on the empty string. *)
Definition index0 (n : string) : option ascii :=
  match n with
  | String c _ => Some c
  | EmptyString => None
  end.

(** [.join("")]: an [undefined] element contributes the empty string. *)
Fixpoint join (parts : list (option ascii)) : string :=
  match parts with
  | [] => EmptyString
  | Some c :: rest => String c (join rest)
  | None :: rest => join rest
  end.

(** [s.substring(start, end)] for [start <= end]. *)
Definition substring (start end_ : nat) (s : string) : string :=
  String.substring start (end_ - start) s.

Section Initials.

(** [String.prototype.toUpperCase], a built-in of the language: any
    function on strings, it may change the length. *)
Variable toUpperCase : string -> string.

Definition getInitials (name : string) : string :=
  substring 0 2 (toUpperCase (join (map index0 (split " " name)))).

End Initials.

(** Upper-casing of the ASCII letters a to z, every other character left
    as it is: what [toUpperCase] does on names made of ASCII characters,
    and not beyond them. *)
Definition upper_ascii (c : ascii) : ascii :=
  let n := nat_of_ascii c in
  if ((97 <=? n) && (n <=? 122))%nat then ascii_of_nat (n - 32) else c.

Fixpoint ascii_toUpperCase (s : string) : string :=
  match s with
  | EmptyString => EmptyString
  | String c s' => String (upper_ascii c) (ascii_toUpperCase s')
  end.

(** The first character of each space-separated word, read off the name in
    one pass; [at_start] says that a word starts at the current position. *)
Fixpoint word_initials_from (at_start : bool) (s : string) : string :=
  match s with
  | EmptyString => EmptyString
  | String c s' =>
      if Ascii.eqb c " " then word_initials_from true s'
      else if at_start then String c (word_initials_from false s')
      else word_initials_from false s'
  end.

Definition word_initials (name : string) : string :=
  word_initials_from true name.

(** The first [n] characters of a string. *)
Fixpoint truncate (n : nat) (s : string) : string :=
  match n, s with
  | S n', String c s' => String c (truncate n' s')
  | _, _ => EmptyString
  end.

End Card.

(** ** Sample data *)

Module Sample.
Import FeedLoader.

Definition user (display_name email country department pic : string) : User.t :=
  {| User.display_name := display_name;
     User.email := email;
     User.country := country;
     User.custom_properties :=
       {| User.department := department; User.location := "Dhaka";
          User.role := "Engineer"; User.employment_status := None |};
     User.manager_email := "lead@example.com";
     User.profile_pic_url := pic |}.

Definition asha : User.t :=
  user "Asha Rahman" "asha@example.com" "BD" "Engineering" "https://pics/asha".

Definition ben : User.t :=
  user "Ben Ortiz" "ben@example.com" "US" "Sales" "https://pics/ben".

Definition bonus (amount : Z) (giver receiver : User.t) (why : string) : BonusResult.t :=
  {| BonusResult.amount := amount;
     BonusResult.giver := giver;
     BonusResult.receiver := receiver;
     BonusResult.reason := why;
     BonusResult.reason_decoded := why;
     BonusResult.created_at := "2025-01-01T00:00:00Z" |}.

(** Received in "BD". *)
Definition bonus_BD : BonusResult.t := bonus 50 ben asha "great demo".

(** Received in "US". *)
Definition bonus_US : BonusResult.t := bonus 25 asha ben "thanks".

(** Another record received in "US". *)
Definition bonus_US' : BonusResult.t := bonus 10 ben ben "self care".

(** Pages of 100, 100, 37 and 0 records at skip 0, 100, 200 and 300. *)
Definition api_237 : Api :=
  fun skip =>
    if (skip =? 0)%Z then {| success := true; result := repeat bonus_BD 100 |}
    else if (skip =? 100)%Z then {| success := true; result := repeat bonus_US 100 |}
    else if (skip =? 200)%Z then {| success := true; result := repeat bonus_BD 37 |}
    else {| success := true; result := [] |}.

(** A page of two records, then a response with [success: false]. *)
Definition api_failing : Api :=
  fun skip =>
    if (skip =? 0)%Z then {| success := true; result := [bonus_BD; bonus_US] |}
    else {| success := false; result := [bonus_BD] |}.

End Sample.

(** ** Agreement on the records received in "BD" *)

(** Two raw sequences hold the same records with receiver country "BD", in
    the same relative order; the records received elsewhere are free. *)
Inductive same_BD_records : list BonusResult.t -> list BonusResult.t -> Prop :=
| same_BD_nil : same_BD_records [] []
| same_BD_both b l1 l2 :
    User.country (BonusResult.receiver b) = "BD" ->
    same_BD_records l1 l2 -> same_BD_records (b :: l1) (b :: l2)
| same_BD_left b l1 l2 :
    User.country (BonusResult.receiver b) <> "BD" ->
    same_BD_records l1 l2 -> same_BD_records (b :: l1) l2
| same_BD_right b l1 l2 :
    User.country (BonusResult.receiver b) <> "BD" ->
    same_BD_records l1 l2 -> same_BD_records l1 (b :: l2).

(** ** What the page shows ([Index], the returned markup) *)

Module IndexView.
Import FeedLoader.

(** The four alternatives of the nested conditional in the card area. *)
Inductive View :=
| Spinner
| ErrorPanel (message : string)
| NothingToShow
| TickerPanel (recognitions : list Recognition.t) (speed : Q).

(** [error ? ... : ...]: [null] and the empty string are falsy. *)
Definition shown_error (error : option string) : option string :=
  match error with
  | Some message => if String.eqb message "" then None else Some message
  | None => None
  end.

(** [loading ? spinner : error ? panel : recognitions.length === 0 ? ... :
    <RecognitionTicker recognitions={recognitions} speed={25} />]. *)
Definition content (st : Index.State) : View :=
  if Index.loading st then Spinner
  else match shown_error (Index.error st) with
       | Some message => ErrorPanel message
       | None =>
           match Index.recognitions st with
           | [] => NothingToShow
           | _ :: _ => TickerPanel (Index.recognitions st) 25
           end
       end.

(** The mount effect of the page: one run of [getBonuses] fed to
    [fetchRecognitions] on the initial state. *)
Definition load (fuel : nat) (listBonuses : Api) : Index.State :=
  Index.fetchRecognitions (outcome (getBonuses fuel listBonuses)) Index.initial.

End IndexView.

(** ** Further sample data *)

Module MoreSamples.
Import FeedLoader.

(** An API that answers every request with one more record. *)
Definition api_endless : Api :=
  fun _ => {| success := true; result := [Sample.bonus_BD] |}.

(** An API whose only page holds records received in "US". *)
Definition api_elsewhere : Api :=
  fun skip =>
    if (skip =? 0)%Z
    then {| success := true; result := [Sample.bonus_US; Sample.bonus_US'] |}
    else {| success := true; result := [] |}.

End MoreSamples.

(** ** Names as sequences of characters *)

Module Names.


(** How often [sep] occurs in [s]. *)
Fixpoint occurrences (sep : ascii) (s : string) : nat :=
  match s with
  | EmptyString => 0
  | String c s' => (if Ascii.eqb c sep then 1 else 0) + occurrences sep s'
  end.




End Names.

(** ** The frame callback in binary64 ([animate]) *)

Module Frame64.
Local Open Scope float_scope.

(** What [animate] captures: the [speed] prop and the [contentHeight]
    state, both numbers of the language. *)
Record Closure := {
  c_speed : float;
  c_contentHeight : float
}.

(** What [animate] reads and writes: the [scrollPosition] state and
    [lastTimeRef.current]. *)
Record State := {
  scrollPosition : float;
  lastTimeRef : option float
}.

(** [lastTimeRef.current] read as a condition: [undefined], [0], [-0] and
    [NaN] are falsy. *)
Definition truthy (r : option float) : bool :=
  match r with
  | Some x => negb (x =? 0) && negb (is_nan x)
  | None => false
  end.

(** [lastTimeRef.current] once [animate] has set it to [timestamp] in case
    it was falsy. *)
Definition last_time (timestamp : float) (st : State) : float :=
  match lastTimeRef st with
  | Some l => if truthy (Some l) then l else timestamp
  | None => timestamp
  end.

(** [delta = timestamp - lastTimeRef.current]. *)
Definition delta (timestamp : float) (st : State) : float :=
  timestamp - last_time timestamp st.

(** [pixelsToScroll = (speed / 1000) * delta]. *)
Definition pixelsToScroll (c : Closure) (timestamp : float) (st : State) : float :=
  c_speed c / 1000 * delta timestamp st.

(** [prevPosition >= contentHeight]. *)
Definition wraps (c : Closure) (st : State) : bool :=
  c_contentHeight c <=? scrollPosition st.

(** The frame callback [animate], without the re-registration, which
    [Ticker.animate] has. *)
Definition animate (c : Closure) (timestamp : float) (st : State) : State :=
  {| scrollPosition :=
       if wraps c st then 0
       else scrollPosition st + pixelsToScroll c timestamp st;
     lastTimeRef := Some timestamp |}.

(** [useState(0)] and [useRef<number>()]. *)
Definition initial : State :=
  {| scrollPosition := 0; lastTimeRef := None |}.

(** A sequence of frames, each with the closure of the callback that the
    browser calls and its timestamp.  Measurements and prop changes between
    frames replace the closure and leave the state alone. *)
Definition run (frames : list (Closure * float)) (st : State) : State :=
  fold_left (fun s f => animate (fst f) (snd f) s) frames st.

(** What the environment guarantees: no captured speed is negative and no
    timestamp is less than the one before. *)
Fixpoint clocked (last : option float) (frames : list (Closure * float)) : Prop :=
  match frames with
  | [] => True
  | (c, timestamp) :: rest =>
      (c_speed c <? 0) = false
      /\ match last with
         | Some l => (l <=? timestamp) = true
         | None => True
         end
      /\ clocked (Some timestamp) rest
  end.

(** A value of the format that is not below zero: a zero, a positive
    number, plus infinity or NaN. *)
Definition sign_not_negative (x : spec_float) : bool :=
  match x with
  | S754_finite s _ _ => negb s
  | S754_infinity s => negb s
  | _ => true
  end.

(** The exponent the format gives a number whose leading binary digit has
    weight [z - 1]: 53 digits of precision, and no exponent below -1074. *)
Definition fexp64 (z : Z) : Z := Z.max (z - 53) (-1074).

(** 1000 px/s over content of height 10. *)
Definition fast : Closure := {| c_speed := 1000; c_contentHeight := 10 |}.

(** 100 px/s over content of height 1000. *)
Definition steady : Closure := {| c_speed := 100; c_contentHeight := 1000 |}.

(** 2^-60 px/s over content of height 1000. *)
Definition crawling : Closure := {| c_speed := 0x1p-60; c_contentHeight := 1000 |}.

End Frame64.

(** * Properties *)

(** ** Feed loader *)

Section FeedLoaderFacts.
Import FeedLoader.

Lemma collect_full_pages (listBonuses : Api) (n : nat) :
  forall (fuel : nat) (skip : Z) (results : list BonusResult.t),
    full_pages listBonuses skip n ->
    requests (collect (n + fuel) listBonuses skip results)
    = skips skip n
      ++ requests (collect fuel listBonuses (skip + 100 * Z.of_nat n)
                           (results ++ pages listBonuses skip n))
    /\ outcome (collect (n + fuel) listBonuses skip results)
       = outcome (collect fuel listBonuses (skip + 100 * Z.of_nat n)
                          (results ++ pages listBonuses skip n)).
Proof.
  induction n as [|n IH]; intros fuel skip results Hfull.
  - simpl. rewrite Z.add_0_r, app_nil_r. split; reflexivity.
  - destruct Hfull as (Hs & Hne & Hrest).
    cbn [Nat.add collect]. rewrite Hs. cbn [negb].
    destruct (result (listBonuses skip)) as [|b data] eqn:Hdata; [congruence|].
    cbn [List.length Nat.ltb Nat.leb requests outcome].
    destruct (IH fuel (skip + 100)%Z (results ++ b :: data) Hrest) as [IHr IHo].
    replace (skip + 100 * Z.of_nat (S n))%Z
      with (skip + 100 + 100 * Z.of_nat n)%Z by lia.
    cbn [pages skips]. rewrite Hdata.
    rewrite app_assoc. rewrite IHr, IHo. split; reflexivity.
Qed.

Lemma collect_returned (listBonuses : Api) :
  forall (fuel : nat) (skip : Z) (results raw : list BonusResult.t),
    outcome (collect fuel listBonuses skip results) = Returned raw ->
    exists n : nat,
      full_pages listBonuses skip n
      /\ success (listBonuses (skip + 100 * Z.of_nat n)%Z) = true
      /\ result (listBonuses (skip + 100 * Z.of_nat n)%Z) = []
      /\ requests (collect fuel listBonuses skip results) = skips skip (S n)
      /\ raw = results ++ pages listBonuses skip n.
Proof.
  induction fuel as [|fuel IH]; intros skip results raw Hout.
  - discriminate Hout.
  - cbn [collect] in *.
    destruct (success (listBonuses skip)) eqn:Hs; cbn [negb] in *;
      [|discriminate Hout].
    destruct (result (listBonuses skip)) as [|b data] eqn:Hdata.
    + cbn in Hout. injection Hout as <-.
      exists 0%nat. cbn. rewrite Z.add_0_r, app_nil_r. auto.
    + cbn [List.length Nat.ltb Nat.leb requests outcome] in *.
      destruct (IH _ _ _ Hout) as (n & Hfull & Hsn & Hen & Hreq & Hraw).
      exists (S n).
      replace (skip + 100 * Z.of_nat (S n))%Z
        with (skip + 100 + 100 * Z.of_nat n)%Z by lia.
      cbn [full_pages pages skips]. rewrite Hs, Hdata, Hreq, Hraw, <- app_assoc.
      repeat split; auto. congruence.
Qed.

Lemma collect_empty_page (listBonuses : Api) (fuel : nat) (skip : Z)
      (results : list BonusResult.t) :
  success (listBonuses skip) = true ->
  result (listBonuses skip) = [] ->
  collect (S fuel) listBonuses skip results
  = {| requests := [skip]; outcome := Returned results |}.
Proof.
  intros Hs He. cbn [collect]. rewrite Hs, He. reflexivity.
Qed.

Lemma skips_snoc (n : nat) :
  forall z : Z, skips z n ++ [(z + 100 * Z.of_nat n)%Z] = skips z (S n).
Proof.
  induction n as [|n IH]; intro z.
  - cbn [skips app]. rewrite Z.mul_0_r, Z.add_0_r. reflexivity.
  - change (skips z (S (S n))) with (z :: skips (z + 100) (S n)).
    rewrite <- (IH (z + 100)%Z). cbn [skips app].
    replace (z + 100 * Z.of_nat (S n))%Z
      with (z + 100 + 100 * Z.of_nat n)%Z by lia.
    reflexivity.
Qed.

Lemma collect_stops_at_empty (listBonuses : Api) (n fuel : nat) :
  full_pages listBonuses 0 n ->
  success (listBonuses (100 * Z.of_nat n)%Z) = true ->
  result (listBonuses (100 * Z.of_nat n)%Z) = [] ->
  (n < fuel)%nat ->
  collect fuel listBonuses 0 []
  = {| requests := skips 0 (S n);
       outcome := Returned (pages listBonuses 0 n) |}.
Proof.
  intros Hfull Hs He Hlt.
  replace fuel with (n + S (fuel - S n))%nat by lia.
  destruct (collect_full_pages listBonuses n (S (fuel - S n)) 0 [] Hfull)
    as [Hr Ho].
  rewrite Z.add_0_l in Hr, Ho. change ([] ++ ?x) with x in Hr, Ho.
  rewrite (collect_empty_page _ _ _ _ Hs He) in Hr, Ho.
  cbn [requests outcome] in Hr, Ho.
  destruct (collect (n + S (fuel - S n)) listBonuses 0 []) as [rq oc].
  cbn [requests outcome] in Hr, Ho. subst rq oc. f_equal.
  rewrite <- skips_snoc. rewrite Z.add_0_l. reflexivity.
Qed.

(** C2. With pages of 100, 100, 37 and 0 records at skip 0, 100, 200 and
    300, all successful, the loop requests exactly those four skips and
    returns 237 raw records, the three non-empty pages in order.  In
    general, after [n] successful non-empty pages and a successful empty
    one the loop has requested the skips 0, 100, ..., 100 n and returns the
    pages collected; and a loop that returns has stopped at the first
    empty page, having raised the skip by 100 after each non-empty one. *)
Theorem C2_pagination :
  (forall (listBonuses : Api) (fuel : nat),
      success (listBonuses 0%Z) = true ->
      List.length (result (listBonuses 0%Z)) = 100%nat ->
      success (listBonuses 100%Z) = true ->
      List.length (result (listBonuses 100%Z)) = 100%nat ->
      success (listBonuses 200%Z) = true ->
      List.length (result (listBonuses 200%Z)) = 37%nat ->
      success (listBonuses 300%Z) = true ->
      List.length (result (listBonuses 300%Z)) = 0%nat ->
      (4 <= fuel)%nat ->
      requests (collect fuel listBonuses 0 []) = [0; 100; 200; 300]%Z
      /\ exists raw : list BonusResult.t,
           outcome (collect fuel listBonuses 0 []) = Returned raw
           /\ raw = result (listBonuses 0%Z) ++ result (listBonuses 100%Z)
                    ++ result (listBonuses 200%Z)
           /\ List.length raw = 237%nat)
  /\ (forall (listBonuses : Api) (n fuel : nat),
         full_pages listBonuses 0 n ->
         success (listBonuses (100 * Z.of_nat n)%Z) = true ->
         result (listBonuses (100 * Z.of_nat n)%Z) = [] ->
         (n < fuel)%nat ->
         collect fuel listBonuses 0 []
         = {| requests := skips 0 (S n);
              outcome := Returned (pages listBonuses 0 n) |})
  /\ (forall (listBonuses : Api) (fuel : nat) (raw : list BonusResult.t),
         outcome (collect fuel listBonuses 0 []) = Returned raw ->
         exists n : nat,
           full_pages listBonuses 0 n
           /\ success (listBonuses (100 * Z.of_nat n)%Z) = true
           /\ result (listBonuses (100 * Z.of_nat n)%Z) = []
           /\ requests (collect fuel listBonuses 0 []) = skips 0 (S n)
           /\ raw = pages listBonuses 0 n).
Proof.
  split; [|split].
  - intros api fuel S0 L0 S1 L1 S2 L2 S3 L3 Hfuel.
    assert (Hne : forall l : list BonusResult.t,
               (0 < List.length l)%nat -> l <> []).
    { intros [|] Hl; [cbn in Hl; lia | discriminate]. }
    assert (Hfull : full_pages api 0 3).
    { cbn. repeat split; auto; apply Hne; lia. }
    assert (He : result (api (100 * Z.of_nat 3)%Z) = []).
    { apply length_zero_iff_nil. exact L3. }
    rewrite (collect_stops_at_empty api 3 fuel Hfull S3 He) by lia.
    cbn [requests outcome skips Z.add]. split; [reflexivity|].
    exists (pages api 0 3). split; [reflexivity|]. cbn [pages].
    change (0 + 100)%Z with 100%Z. change (100 + 100)%Z with 200%Z.
    rewrite app_nil_r. split; [reflexivity|].
    rewrite !length_app, L0, L1, L2. reflexivity.
  - exact collect_stops_at_empty.
  - intros api fuel raw Hout.
    destruct (collect_returned api fuel 0 [] raw Hout)
      as (n & H1 & H2 & H3 & H4 & H5).
    exists n. auto.
Qed.

(** The witness of C2: the run against [Sample.api_237]. *)
Lemma C2_pagination_witness :
  requests (collect 4 Sample.api_237 0 []) = [0; 100; 200; 300]%Z
  /\ exists raw : list BonusResult.t,
       outcome (collect 4 Sample.api_237 0 []) = Returned raw
       /\ raw = result (Sample.api_237 0%Z) ++ result (Sample.api_237 100%Z)
                ++ result (Sample.api_237 200%Z)
       /\ List.length raw = 237%nat.
Proof.
  apply (proj1 C2_pagination Sample.api_237 4%nat); reflexivity.
Defined.

Lemma receiver_in_BD_true (b : BonusResult.t) :
  receiver_in_BD b = true <-> User.country (BonusResult.receiver b) = "BD".
Proof. apply String.eqb_eq. Qed.

Lemma receiver_in_BD_false (b : BonusResult.t) :
  receiver_in_BD b = false <-> User.country (BonusResult.receiver b) <> "BD".
Proof. apply String.eqb_neq. Qed.

Lemma filter_reshape_app (l1 l2 : list BonusResult.t) :
  filter_reshape (l1 ++ l2) = filter_reshape l1 ++ filter_reshape l2.
Proof. unfold filter_reshape. rewrite filter_app, map_app. reflexivity. Qed.

Lemma filter_reshape_cons (b : BonusResult.t) (l : list BonusResult.t) :
  filter_reshape (b :: l)
  = if receiver_in_BD b then reshape b :: filter_reshape l else filter_reshape l.
Proof. unfold filter_reshape. cbn [filter]. destruct (receiver_in_BD b); reflexivity. Qed.

(** C3. When the collection succeeds, [getBonuses] returns the filtered and
    reshaped raw sequence.  That stage maps the empty sequence to the empty
    one; a record received in "BD" contributes, at its place between what
    precedes and what follows it, one Recognition whose amount and decoded
    reason are copied and whose giver and receiver carry display_name as
    name, custom_properties.department as department, and the email and
    profile_pic_url; a record received anywhere else contributes nothing. *)
Theorem C3_filter_and_reshape :
  (forall (listBonuses : Api) (fuel : nat) (raw : list BonusResult.t),
      outcome (collect fuel listBonuses 0 []) = Returned raw ->
      outcome (getBonuses fuel listBonuses) = Returned (filter_reshape raw))
  /\ filter_reshape [] = []
  /\ (forall (l1 l2 : list BonusResult.t) (b : BonusResult.t),
         User.country (BonusResult.receiver b) = "BD" ->
         exists r : Recognition.t,
           filter_reshape (l1 ++ b :: l2)
           = filter_reshape l1 ++ r :: filter_reshape l2
           /\ Recognition.amount r = BonusResult.amount b
           /\ Recognition.reason_decoded r = BonusResult.reason_decoded b
           /\ Person.name (Recognition.giver r)
              = User.display_name (BonusResult.giver b)
           /\ Person.email (Recognition.giver r)
              = User.email (BonusResult.giver b)
           /\ Person.department (Recognition.giver r)
              = User.department (User.custom_properties (BonusResult.giver b))
           /\ Person.profile_pic_url (Recognition.giver r)
              = User.profile_pic_url (BonusResult.giver b)
           /\ Person.name (Recognition.receiver r)
              = User.display_name (BonusResult.receiver b)
           /\ Person.email (Recognition.receiver r)
              = User.email (BonusResult.receiver b)
           /\ Person.department (Recognition.receiver r)
              = User.department (User.custom_properties (BonusResult.receiver b))
           /\ Person.profile_pic_url (Recognition.receiver r)
              = User.profile_pic_url (BonusResult.receiver b))
  /\ (forall (l1 l2 : list BonusResult.t) (b : BonusResult.t),
         User.country (BonusResult.receiver b) <> "BD" ->
         filter_reshape (l1 ++ b :: l2) = filter_reshape l1 ++ filter_reshape l2).
Proof.
  split; [|split; [reflexivity|split]].
  - intros api fuel raw Hout. unfold getBonuses. cbn [outcome].
    rewrite Hout. reflexivity.
  - intros l1 l2 b HBD. exists (reshape b).
    rewrite filter_reshape_app, filter_reshape_cons.
    apply receiver_in_BD_true in HBD. rewrite HBD.
    repeat split; reflexivity.
  - intros l1 l2 b HBD.
    rewrite filter_reshape_app, filter_reshape_cons.
    apply receiver_in_BD_false in HBD. rewrite HBD. reflexivity.
Qed.

(** The witness of C3: a record received in "US" between two records
    received in "BD". *)
Lemma C3_filter_and_reshape_witness :
  User.country (BonusResult.receiver Sample.bonus_US) <> "BD"
  /\ filter_reshape ([Sample.bonus_BD] ++ Sample.bonus_US :: [Sample.bonus_BD])
     = filter_reshape [Sample.bonus_BD] ++ filter_reshape [Sample.bonus_BD].
Proof.
  assert (H : User.country (BonusResult.receiver Sample.bonus_US) <> "BD")
    by discriminate.
  split; [exact H|].
  exact (proj2 (proj2 (proj2 C3_filter_and_reshape))
               [Sample.bonus_BD] [Sample.bonus_BD] Sample.bonus_US H).
Defined.

Lemma collect_failure (listBonuses : Api) :
  forall (fuel : nat) (skip : Z) (results : list BonusResult.t) (k : Z),
    In k (requests (collect fuel listBonuses skip results)) ->
    success (listBonuses k) = false ->
    outcome (collect fuel listBonuses skip results)
    = Thrown "failed to fetch bonuses"
    /\ exists earlier : list Z,
         requests (collect fuel listBonuses skip results) = earlier ++ [k].
Proof.
  induction fuel as [|fuel IH]; intros skip results k Hin Hk.
  - destruct Hin.
  - cbn [collect] in *.
    destruct (success (listBonuses skip)) eqn:Hs; cbn [negb] in *.
    + destruct (result (listBonuses skip)) as [|b data] eqn:Hdata.
      * cbn in Hin. destruct Hin as [<-|[]]. congruence.
      * cbn [List.length Nat.ltb Nat.leb requests outcome] in *.
        destruct Hin as [<-|Hin]; [congruence|].
        destruct (IH _ _ _ Hin Hk) as [Ho [earlier He]].
        split; [exact Ho|]. exists (skip :: earlier). rewrite He. reflexivity.
    + cbn in Hin. destruct Hin as [<-|[]].
      split; [reflexivity|]. exists []. reflexivity.
Qed.

Lemma collect_stops_at_failure (listBonuses : Api) (n fuel : nat) :
  full_pages listBonuses 0 n ->
  success (listBonuses (100 * Z.of_nat n)%Z) = false ->
  (n < fuel)%nat ->
  collect fuel listBonuses 0 []
  = {| requests := skips 0 (S n);
       outcome := Thrown "failed to fetch bonuses" |}.
Proof.
  intros Hfull Hs Hlt.
  replace fuel with (n + S (fuel - S n))%nat by lia.
  destruct (collect_full_pages listBonuses n (S (fuel - S n)) 0 [] Hfull)
    as [Hr Ho].
  rewrite Z.add_0_l in Hr, Ho. cbn [collect] in Hr, Ho.
  rewrite Hs in Hr, Ho. cbn [negb requests outcome] in Hr, Ho.
  destruct (collect (n + S (fuel - S n)) listBonuses 0 []) as [rq oc].
  cbn [requests outcome] in Hr, Ho. subst rq oc. f_equal.
  rewrite <- skips_snoc. rewrite Z.add_0_l. reflexivity.
Qed.

(** C4. If a requested page answers with success false, [getBonuses] throws
    the one error "failed to fetch bonuses", that request is the last one
    made, and the caller gets no records: the page component is left with an
    empty sequence and its error message.  Such a run exists for every
    position of the failing page: after [n] successful non-empty pages the
    failure at skip 100 n ends the run with the skips 0, ..., 100 n
    requested. *)
Theorem C4_failure_aborts :
  (forall (listBonuses : Api) (fuel : nat) (k : Z),
      In k (requests (getBonuses fuel listBonuses)) ->
      success (listBonuses k) = false ->
      outcome (getBonuses fuel listBonuses) = Thrown "failed to fetch bonuses"
      /\ (exists earlier : list Z,
            requests (getBonuses fuel listBonuses) = earlier ++ [k])
      /\ records_of (outcome (getBonuses fuel listBonuses)) = None
      /\ Index.fetchRecognitions (outcome (getBonuses fuel listBonuses))
                                 Index.initial
         = {| Index.recognitions := []; Index.loading := false;
              Index.error := Some "Failed to load recognitions" |})
  /\ (forall (listBonuses : Api) (n fuel : nat),
         full_pages listBonuses 0 n ->
         success (listBonuses (100 * Z.of_nat n)%Z) = false ->
         (n < fuel)%nat ->
         getBonuses fuel listBonuses
         = {| requests := skips 0 (S n);
              outcome := Thrown "failed to fetch bonuses" |}).
Proof.
  split.
  - intros api fuel k Hin Hk. unfold getBonuses in *. cbn [requests outcome] in *.
    destruct (collect_failure api fuel 0 [] k Hin Hk) as [Ho He].
    rewrite Ho. cbn. auto.
  - intros api n fuel Hfull Hs Hlt. unfold getBonuses.
    rewrite (collect_stops_at_failure api n fuel Hfull Hs Hlt). reflexivity.
Qed.

(** The witness of C4: [Sample.api_failing] fails on its second page. *)
Lemma C4_failure_aborts_witness :
  getBonuses 5 Sample.api_failing
  = {| requests := skips 0 2; outcome := Thrown "failed to fetch bonuses" |}.
Proof.
  apply (proj2 C4_failure_aborts Sample.api_failing 1%nat 5%nat).
  - cbn. repeat split; [discriminate].
  - reflexivity.
  - lia.
Defined.

Lemma same_BD_filter (raw1 raw2 : list BonusResult.t) :
  same_BD_records raw1 raw2 ->
  filter receiver_in_BD raw1 = filter receiver_in_BD raw2.
Proof.
  induction 1 as [|b l1 l2 Hb _ IH|b l1 l2 Hb _ IH|b l1 l2 Hb _ IH];
    cbn [filter].
  - reflexivity.
  - apply receiver_in_BD_true in Hb. rewrite Hb, IH. reflexivity.
  - apply receiver_in_BD_false in Hb. rewrite Hb. exact IH.
  - apply receiver_in_BD_false in Hb. rewrite Hb. exact IH.
Qed.

(** C9. Two raw sequences that agree on their records received in "BD",
    in order, are filtered and reshaped to the same output; in particular
    replacing a record received elsewhere by any other such record changes
    nothing. *)
Theorem C9_non_BD_records_have_no_influence :
  (forall raw1 raw2 : list BonusResult.t,
      same_BD_records raw1 raw2 -> filter_reshape raw1 = filter_reshape raw2)
  /\ (forall (l1 l2 : list BonusResult.t) (b b' : BonusResult.t),
         User.country (BonusResult.receiver b) <> "BD" ->
         User.country (BonusResult.receiver b') <> "BD" ->
         filter_reshape (l1 ++ b :: l2) = filter_reshape (l1 ++ b' :: l2)).
Proof.
  split.
  - intros raw1 raw2 H. unfold filter_reshape.
    rewrite (same_BD_filter raw1 raw2 H). reflexivity.
  - intros l1 l2 b b' Hb Hb'.
    rewrite !filter_reshape_app, !filter_reshape_cons.
    apply receiver_in_BD_false in Hb, Hb'. rewrite Hb, Hb'. reflexivity.
Qed.

(** The witness of C9: two sequences that differ in the records received in
    "US" only. *)
Lemma C9_non_BD_records_have_no_influence_witness :
  filter_reshape [Sample.bonus_US; Sample.bonus_BD]
  = filter_reshape [Sample.bonus_BD; Sample.bonus_US'; Sample.bonus_US].
Proof.
  apply (proj1 C9_non_BD_records_have_no_influence).
  apply same_BD_left; [discriminate|].
  apply same_BD_both; [reflexivity|].
  apply same_BD_right; [discriminate|].
  apply same_BD_right; [discriminate|].
  apply same_BD_nil.
Defined.

End FeedLoaderFacts.

(** ** Ticker controller *)

Section TickerFacts.
Import Ticker.

Lemma run_frame_idle (timestamp : Q) (st : State) :
  frames st = [] -> run_frame timestamp st = st.
Proof.
  intro H. unfold run_frame. rewrite H. destruct st; cbn in *. subst. reflexivity.
Qed.

Lemma run_frame_animating (timestamp : Q) (st : State) (h : nat) (c : Closure) :
  frames st = [(h, c)] ->
  run_frame timestamp st
  = {| recognitions := recognitions st; speed := speed st;
       scrollPosition :=
         if wraps c st then 0
         else scrollPosition st + pixelsToScroll c timestamp st;
       containerHeight := containerHeight st;
       contentHeight := contentHeight st;
       animationRef := Some (next_handle st);
       lastTimeRef := Some timestamp;
       cleanup := cleanup st;
       frames := [(next_handle st, c)];
       next_handle := S (next_handle st) |}.
Proof.
  intro H. unfold run_frame. rewrite H. reflexivity.
Qed.

Lemma animation_cleanup_idle (st : State) :
  idle st -> animation_cleanup st = st.
Proof.
  intros (_ & Hc & _). unfold animation_cleanup. rewrite Hc. reflexivity.
Qed.

Lemma animation_cleanup_animating (st : State) :
  animating st -> animation_cleanup st = set_frames [] st.
Proof.
  intros (h & c & Hf & Ha & [Hh _] & Hc & _).
  unfold animation_cleanup, cancelAnimationFrame. rewrite Hc, Ha, Hf.
  destruct h as [|h]; [lia|]. cbn [Nat.eqb filter fst negb].
  rewrite Nat.eqb_refl. reflexivity.
Qed.

Lemma delta_nonneg (timestamp : Q) (st : State) :
  admissible st (Frame timestamp) -> 0 <= delta timestamp st.
Proof.
  unfold admissible, delta, last_time.
  destruct (lastTimeRef st) as [l|]; intro H.
  - destruct (truthy (Some l)); lra.
  - lra.
Qed.

Lemma delta_first_frame (timestamp : Q) (st : State) :
  truthy (lastTimeRef st) = false -> delta timestamp st == 0.
Proof.
  unfold delta, last_time. intro H.
  destruct (lastTimeRef st) as [l|]; [rewrite H|]; lra.
Qed.

Lemma Qle_bool_false (x y : Q) : Qle_bool x y = false -> y < x.
Proof.
  intro H. apply Qnot_le_lt. intro Hle.
  apply Qle_bool_iff in Hle. congruence.
Qed.

Lemma restart_spec (old new : State) :
  idle old \/ animating old ->
  frames new = frames old -> animationRef new = animationRef old ->
  cleanup new = cleanup old -> next_handle new = next_handle old ->
  (0 < next_handle old)%nat ->
  same_view new (animation_effect (animation_cleanup new))
  /\ (0 < next_handle (animation_effect (animation_cleanup new)))%nat
  /\ (idle (animation_effect (animation_cleanup new))
      \/ animating (animation_effect (animation_cleanup new)))
  /\ cancelled old (animation_effect (animation_cleanup new)).
Proof.
  intros Hold Hf Ha Hc Hn Hpos.
  assert (Hclean : animation_cleanup new = set_frames [] new).
  { destruct Hold as [(Hf0 & Hc0 & _)|(h & c & Hf0 & Ha0 & [Hh _] & Hc0 & _)].
    - unfold animation_cleanup. rewrite Hc, Hc0.
      unfold set_frames. destruct new; cbn in *. congruence.
    - unfold animation_cleanup, cancelAnimationFrame.
      rewrite Hc, Hc0, Ha, Ha0, Hf, Hf0.
      destruct h as [|h]; [lia|]. cbn [Nat.eqb filter fst negb].
      rewrite Nat.eqb_refl. reflexivity. }
  rewrite Hclean. unfold animation_effect.
  change (contentHeight (set_frames [] new)) with (contentHeight new).
  change (containerHeight (set_frames [] new)) with (containerHeight new).
  destruct (Qle_bool (contentHeight new) (containerHeight new)) eqn:Hfit.
  - apply Qle_bool_iff in Hfit.
    split; [repeat split|]. split; [cbn; lia|]. split.
    + left. repeat split. exact Hfit.
    + intros f _ [].
  - apply Qle_bool_false in Hfit.
    split; [repeat split|]. split; [cbn; lia|]. split.
    + right. exists (next_handle new), {| c_speed := speed new;
                                          c_contentHeight := contentHeight new |}.
      cbn. repeat split; try reflexivity; try lia. exact Hfit.
    + intros f Hin. cbn. intros [Heq|[]].
      destruct Hold as [(Hf0 & _)|(h & c & Hf0 & _ & [_ Hh] & _)];
        rewrite Hf0 in Hin; [destruct Hin|].
      destruct Hin as [<-|[]]. cbn in Heq. lia.
Qed.

Lemma deps_unchanged (old new : State) :
  deps_changed old new = false ->
  contentHeight old == contentHeight new
  /\ containerHeight old == containerHeight new
  /\ speed old == speed new.
Proof.
  unfold deps_changed. intro H. apply negb_false_iff in H.
  apply andb_true_iff in H. destruct H as [H H3].
  apply andb_true_iff in H. destruct H as [H1 H2].
  apply Qeq_bool_iff in H1, H2, H3. auto.
Qed.

Lemma commit_spec (old new : State) :
  invariant old ->
  frames new = frames old -> animationRef new = animationRef old ->
  cleanup new = cleanup old -> next_handle new = next_handle old ->
  scrollPosition new = scrollPosition old ->
  0 <= speed new ->
  invariant (commit old new)
  /\ same_view new (commit old new)
  /\ (deps_changed old new = true -> cancelled old (commit old new)).
Proof.
  intros (Hs & Hp & Hn & Hold) Hf Ha Hc Hnh Hsp Hs'.
  unfold commit. destruct (deps_changed old new) eqn:Hd.
  - destruct (restart_spec old new Hold Hf Ha Hc Hnh Hn)
      as (Hview & Hn' & Hst & Hcan).
    split; [|split; [exact Hview | intros _; exact Hcan]].
    destruct Hview as (_ & Hv2 & Hv3 & _).
    unfold invariant. rewrite Hv2, Hv3, Hsp. auto.
  - destruct (deps_unchanged old new Hd) as (H1 & H2 & H3).
    split; [|split; [repeat split | discriminate]].
    unfold invariant. rewrite Hsp, Hnh. repeat split; auto.
    destruct Hold as [(Hf0 & Hc0 & Hfit)|(h & c & Hf0 & Ha0 & Hh & Hc0 & Hcs & Hcc & Hov)].
    + left. unfold idle. rewrite Hf, Hc. repeat split; auto. lra.
    + right. exists h, c. rewrite Hf, Ha, Hc, Hnh.
      repeat split; auto; try lia; lra.
Qed.

Lemma updateDimensions_spec (clientHeight scrollHeight : Q) (st : State) :
  invariant st ->
  invariant (updateDimensions clientHeight scrollHeight st)
  /\ recognitions (updateDimensions clientHeight scrollHeight st) = recognitions st
  /\ speed (updateDimensions clientHeight scrollHeight st) = speed st
  /\ scrollPosition (updateDimensions clientHeight scrollHeight st)
     = scrollPosition st
  /\ lastTimeRef (updateDimensions clientHeight scrollHeight st) = lastTimeRef st
  /\ containerHeight (updateDimensions clientHeight scrollHeight st) = clientHeight
  /\ contentHeight (updateDimensions clientHeight scrollHeight st) = scrollHeight
  /\ (~ (clientHeight == containerHeight st /\ scrollHeight == contentHeight st) ->
      cancelled st (updateDimensions clientHeight scrollHeight st)).
Proof.
  intro Hinv. unfold updateDimensions.
  set (new := setContentHeight scrollHeight (setContainerHeight clientHeight st)).
  destruct (commit_spec st new Hinv) as (Hi & Hv & Hcan);
    try reflexivity.
  { destruct Hinv as (Hs & _). exact Hs. }
  destruct Hv as (V1 & V2 & V3 & V4 & V5 & V6).
  split; [exact Hi|]. do 6 (split; [assumption|]).
  intro Hchg. apply Hcan.
  destruct (deps_changed st new) eqn:Hd; [reflexivity|].
  destruct (deps_unchanged st new Hd) as (H1 & H2 & _).
  exfalso. apply Hchg. subst new. cbn in H1, H2. split; lra.
Qed.

Lemma invariant_mount (rs : list Recognition.t) (s clientHeight scrollHeight : Q) :
  0 <= s -> invariant (mount rs s clientHeight scrollHeight).
Proof.
  intro Hs. unfold mount. apply updateDimensions_spec.
  unfold animation_effect, initial. cbn.
  repeat split; cbn; try lra; try lia.
  left. repeat split. cbn. lra.
Qed.

Lemma invariant_run_frame (timestamp : Q) (st : State) :
  invariant st -> admissible st (Frame timestamp) ->
  invariant (run_frame timestamp st).
Proof.
  intros (Hs & Hp & Hn & Hst) Hadm.
  destruct Hst as [(Hf & Hc & Hfit)|(h & c & Hf & Ha & Hh & Hc & Hcs & Hcc & Hov)].
  - rewrite (run_frame_idle _ _ Hf). repeat split; auto. left. repeat split; auto.
  - rewrite (run_frame_animating _ _ _ _ Hf).
    pose proof (delta_nonneg timestamp st Hadm) as Hd.
    repeat split; cbn; auto; try lia.
    + destruct (wraps c st); [lra|]. unfold pixelsToScroll.
      assert (0 <= c_speed c / 1000 * delta timestamp st).
      { apply Qmult_le_0_compat; [|exact Hd].
        apply Qle_shift_div_l; lra. }
      lra.
    + right. exists (next_handle st), c. cbn. repeat split; auto; lia.
Qed.

Lemma invariant_step (e : Event) (st : State) :
  invariant st -> admissible st e -> invariant (step e st).
Proof.
  intros Hinv Hadm. destruct e as [ts|ch sh|rs ch sh|s]; cbn [step].
  - apply invariant_run_frame; assumption.
  - apply updateDimensions_spec. exact Hinv.
  - apply updateDimensions_spec.
    destruct Hinv as (H1 & H2 & H3 & H4). repeat split; auto.
  - apply commit_spec; try reflexivity; assumption.
Qed.

Lemma reachable_invariant (st : State) : reachable st -> invariant st.
Proof.
  induction 1 as [rs s ch sh Hs|st e _ IH Hadm].
  - apply invariant_mount. exact Hs.
  - apply invariant_step; assumption.
Qed.

Lemma reachable_animating (st : State) :
  reachable st -> containerHeight st < contentHeight st -> animating st.
Proof.
  intros Hr Hov. destruct (reachable_invariant st Hr) as (_ & _ & _ & [Hi|Ha]).
  - destruct Hi as (_ & _ & Hfit). lra.
  - exact Ha.
Qed.

Lemma reachable_idle (st : State) :
  reachable st -> contentHeight st <= containerHeight st -> idle st.
Proof.
  intros Hr Hfit. destruct (reachable_invariant st Hr) as (_ & _ & _ & [Hi|Ha]).
  - exact Hi.
  - destruct Ha as (h & c & _ & _ & _ & _ & _ & _ & Hov). lra.
Qed.

Lemma wraps_true (c : Closure) (st : State) :
  wraps c st = true <-> c_contentHeight c <= scrollPosition st.
Proof. apply Qle_bool_iff. Qed.

Lemma wraps_false (c : Closure) (st : State) :
  wraps c st = false <-> scrollPosition st < c_contentHeight c.
Proof.
  split.
  - apply Qle_bool_false.
  - intro H. destruct (wraps c st) eqn:Hw; [|reflexivity].
    apply wraps_true in Hw. lra.
Qed.

Lemma scrollPosition_animate (c : Closure) (timestamp : Q) (st : State) :
  scrollPosition (animate c timestamp st)
  = if wraps c st then 0
    else scrollPosition st + c_speed c / 1000 * delta timestamp st.
Proof. reflexivity. Qed.

Ltac admissible_now :=
  vm_compute; first [exact I | discriminate].

Ltac reachable_now :=
  repeat first
    [ apply reachable_mount; admissible_now
    | apply reachable_step; [| admissible_now] ].

Lemma reachable_scrolled : reachable scrolled.
Proof. unfold scrolled, overflowing. cbn [run fold_left]. reachable_now. Qed.

(** The component reaches an offset beyond the content extent: with
    content extent 10 and speed 1000 px/s, the frame 16 ms after the first
    one takes the offset from 0 to 16, which is not wrapped to 0. *)
Lemma overshot_reachable :
  reachable overshot
  /\ containerHeight overshot == 5 /\ contentHeight overshot == 10
  /\ scrollPosition overshot == 16
  /\ ~ scrollPosition overshot < contentHeight overshot
  /\ ~ scrollPosition overshot == 0.
Proof.
  split.
  - unfold overshot, overflowing. cbn [run fold_left]. reachable_now.
  - repeat split; vm_compute; discriminate.
Qed.

Lemma slice_from_0 (A : Type) (k : nat) (l : list A) : slice 0 k l = firstn k l.
Proof. unfold slice. rewrite Nat.sub_0_r. reflexivity. Qed.

(** C5. The display list is the input followed by its first
    min(3, length) elements, in order; it has length + min(3, length)
    elements, the input is its prefix and what follows the input is that
    prefix of the input. *)
Theorem C5_display_list :
  forall rs : list Recognition.t,
    displayRecognitions rs = rs ++ firstn (Nat.min 3 (List.length rs)) rs
    /\ List.length (displayRecognitions rs)
       = (List.length rs + Nat.min 3 (List.length rs))%nat
    /\ firstn (List.length rs) (displayRecognitions rs) = rs
    /\ skipn (List.length rs) (displayRecognitions rs)
       = firstn (Nat.min 3 (List.length rs)) rs.
Proof.
  intro rs. unfold displayRecognitions, duplicateCount.
  rewrite slice_from_0. split; [reflexivity|]. split; [|split].
  - rewrite length_app, length_firstn. lia.
  - rewrite firstn_app, Nat.sub_diag, firstn_all, firstn_O, app_nil_r.
    reflexivity.
  - rewrite skipn_app, Nat.sub_diag, skipn_all. reflexivity.
Qed.

Lemma run_frames_idle (st : State) (timestamps : list Q) :
  frames st = [] -> run (map Frame timestamps) st = st.
Proof.
  intro Hf. induction timestamps as [|ts tss IH]; [reflexivity|].
  cbn [map run fold_left step]. rewrite (run_frame_idle ts st Hf). exact IH.
Qed.

Lemma commit_quiet (old new : State) :
  quiet old ->
  frames new = frames old -> animationRef new = animationRef old ->
  cleanup new = cleanup old -> next_handle new = next_handle old ->
  scrollPosition new = scrollPosition old ->
  contentHeight new <= containerHeight new ->
  quiet (commit old new).
Proof.
  intros (Hi & Hp & Hn) Hf Ha Hc Hnh Hsp Hfit. unfold commit.
  destruct (deps_changed old new).
  - destruct (restart_spec old new (or_introl Hi) Hf Ha Hc Hnh Hn)
      as ((_ & _ & V3 & V4 & V5 & _) & Hn' & Hst & _).
    assert (Hidle : idle (animation_effect (animation_cleanup new))).
    { destruct Hst as [Hidle|(h & c & _ & _ & _ & _ & _ & _ & Hov)].
      - exact Hidle.
      - rewrite V4, V5 in Hov. lra. }
    split; [exact Hidle|]. split; [congruence | exact Hn'].
  - destruct Hi as (Hf0 & Hc0 & _).
    split; [|split; congruence]. split; [|split]; congruence || assumption.
Qed.

Lemma quiet_step (e : Event) (st : State) :
  quiet st -> fits e -> quiet (step e st).
Proof.
  intros Hq Hfit. destruct e as [ts|ch sh|rs ch sh|s]; cbn [step fits] in *.
  - destruct Hq as ((Hf & Hc & Hh) & Hp & Hn).
    rewrite (run_frame_idle ts st Hf). repeat split; assumption.
  - apply commit_quiet; try reflexivity; assumption.
  - unfold updateDimensions.
    apply commit_quiet; try reflexivity; try assumption.
  - apply commit_quiet; try reflexivity; try assumption.
    destruct Hq as ((_ & _ & Hh) & _). exact Hh.
Qed.

Lemma quiet_run (events : list Event) :
  forall st : State, quiet st -> Forall fits events -> quiet (run events st).
Proof.
  induction events as [|e events IH]; intros st Hq Hall; [exact Hq|].
  inversion Hall as [|e' events' He Hes]; subst.
  cbn [run fold_left]. apply IH; [|exact Hes]. apply quiet_step; assumption.
Qed.

Lemma quiet_mount (rs : list Recognition.t) (s clientHeight scrollHeight : Q) :
  scrollHeight <= clientHeight -> quiet (mount rs s clientHeight scrollHeight).
Proof.
  intro Hfit. unfold mount, updateDimensions.
  apply commit_quiet; try reflexivity; [|exact Hfit].
  unfold animation_effect, initial. cbn.
  repeat split; cbn; try lra; lia.
Qed.

(** C6, as the code has it.  In a reachable state whose content extent is
    at most the container extent no frame callback is registered, and any
    number of frames leaves the state, hence the offset, as it is.  When
    the content has fitted at mount and at every measurement since, no
    callback is registered and the offset is 0. *)
Theorem C6_fitting_content :
  (forall st : State,
      reachable st -> contentHeight st <= containerHeight st ->
      frames st = []
      /\ forall timestamps : list Q, run (map Frame timestamps) st = st)
  /\ (forall (rs : list Recognition.t) (s clientHeight scrollHeight : Q)
             (events : list Event),
         scrollHeight <= clientHeight -> Forall fits events ->
         frames (run events (mount rs s clientHeight scrollHeight)) = []
         /\ scrollPosition (run events (mount rs s clientHeight scrollHeight))
            = 0).
Proof.
  split.
  - intros st Hr Hfit. destruct (reachable_idle st Hr Hfit) as (Hf & _).
    split; [exact Hf|]. intro tss. apply run_frames_idle. exact Hf.
  - intros rs s ch sh events Hfit Hall.
    destruct (quiet_run events _ (quiet_mount rs s ch sh Hfit) Hall)
      as ((Hf & _) & Hp & _).
    split; assumption.
Qed.

(** The witness of C6: a ticker mounted with content of height 3 in a
    container of height 5, resized and shown a frame. *)
Lemma C6_fitting_content_witness :
  frames (run [Resize 6 4; Frame 1] (mount [] 30 5 3)) = []
  /\ scrollPosition (run [Resize 6 4; Frame 1] (mount [] 30 5 3)) = 0.
Proof.
  apply (proj2 C6_fitting_content [] 30 5 3 [Resize 6 4; Frame 1]).
  - vm_compute. discriminate.
  - repeat constructor. vm_compute. discriminate.
Defined.

(** C6 as stated fails: after two frames 1 ms apart the container grows to
    the height of the content; the content then fits, no callback is
    registered, and the offset stays at 1, also after further frames. *)
Lemma C6_counterexample :
  reachable refitted
  /\ contentHeight refitted <= containerHeight refitted
  /\ frames refitted = []
  /\ scrollPosition refitted == 1
  /\ ~ scrollPosition refitted == 0
  /\ ~ scrollPosition (run [Frame 3; Frame 4] refitted) == 0.
Proof.
  split.
  - unfold refitted. apply reachable_step; [exact reachable_scrolled | exact I].
  - repeat split; vm_compute; discriminate.
Qed.

(** C7, as the code has it.  When a measurement changes the container or
    the content extent, the callback in flight is cancelled and a new one
    is registered exactly when the content now overflows the container;
    the new extents are stored; the scroll offset and the last-frame
    timestamp are left as they were, so the elapsed time of the next frame
    is counted from the last frame before the change. *)
Theorem C7_extent_change :
  forall (st : State) (e : Event) (clientHeight scrollHeight : Q),
    reachable st ->
    measured e = Some (clientHeight, scrollHeight) ->
    ~ (clientHeight == containerHeight st /\ scrollHeight == contentHeight st) ->
    cancelled st (step e st)
    /\ (frames (step e st) <> [] <-> clientHeight < scrollHeight)
    /\ containerHeight (step e st) = clientHeight
    /\ contentHeight (step e st) = scrollHeight
    /\ scrollPosition (step e st) = scrollPosition st
    /\ lastTimeRef (step e st) = lastTimeRef st
    /\ forall timestamp : Q, delta timestamp (step e st) = delta timestamp st.
Proof.
  intros st e ch sh Hr Hm Hchg.
  pose proof (reachable_invariant st Hr) as Hinv.
  assert (Hstep : exists st0 : State,
             step e st = updateDimensions ch sh st0 /\ invariant st0
             /\ frames st0 = frames st /\ scrollPosition st0 = scrollPosition st
             /\ lastTimeRef st0 = lastTimeRef st
             /\ containerHeight st0 = containerHeight st
             /\ contentHeight st0 = contentHeight st).
  { destruct e as [ts|ch' sh'|rs ch' sh'|s]; cbn in Hm; try discriminate;
      injection Hm as -> ->.
    - exists st. repeat split; auto; apply Hinv.
    - exists (set_recognitions rs st). repeat split; auto; apply Hinv. }
  destruct Hstep as (st0 & -> & Hinv0 & Hf0 & Hp0 & Hl0 & Hc0 & Hh0).
  destruct (updateDimensions_spec ch sh st0 Hinv0)
    as (Hinv' & _ & _ & Hp & Hl & Hc & Hh & Hcan).
  rewrite Hc0, Hh0 in Hcan. specialize (Hcan Hchg).
  split; [|split; [|repeat split]].
  - intros f Hin. apply Hcan. rewrite Hf0. exact Hin.
  - destruct Hinv' as (_ & _ & _ & [(Hf & _ & Hfit)|(h & c & Hf & _ & _ & _ & _ & _ & Hov)]);
      rewrite Hc, Hh in *; rewrite Hf; split.
    + intro H. congruence.
    + intro H. lra.
    + intros _. exact Hov.
    + intros _. discriminate.
  - exact Hc.
  - exact Hh.
  - congruence.
  - congruence.
  - intro ts. unfold delta, last_time. rewrite Hl, Hl0. reflexivity.
Qed.

(** The witness of C7: the content of [scrolled] grows from 10 to 20. *)
Lemma C7_extent_change_witness :
  cancelled scrolled (step (Resize 5 20) scrolled)
  /\ (frames (step (Resize 5 20) scrolled) <> [] <-> 5 < 20)
  /\ containerHeight (step (Resize 5 20) scrolled) = 5
  /\ contentHeight (step (Resize 5 20) scrolled) = 20
  /\ scrollPosition (step (Resize 5 20) scrolled) = scrollPosition scrolled
  /\ lastTimeRef (step (Resize 5 20) scrolled) = lastTimeRef scrolled
  /\ forall timestamp : Q,
       delta timestamp (step (Resize 5 20) scrolled) = delta timestamp scrolled.
Proof.
  apply (C7_extent_change scrolled (Resize 5 20) 5 20).
  - unfold scrolled, overflowing. cbn [run fold_left]. reachable_now.
  - reflexivity.
  - vm_compute. intros [_ H]. discriminate H.
Defined.

(** C7 as stated fails: when the content of [scrolled] grows from 10 to 20
    the offset stays at 1 and the last-frame timestamp at 2, so the frame
    at 10 ms counts 8 ms and moves the offset from 1 to 9. *)
Lemma C7_counterexample :
  reachable restarted
  /\ ~ contentHeight restarted == contentHeight scrolled
  /\ ~ scrollPosition restarted == 0
  /\ lastTimeRef restarted = Some 2
  /\ ~ delta 10 restarted == 0
  /\ scrollPosition (step (Frame 10) restarted) == 9.
Proof.
  split.
  - unfold restarted. apply reachable_step; [exact reachable_scrolled | exact I].
  - repeat split; vm_compute; discriminate.
Qed.

Lemma transition_none (st : State) :
  transition st = TransitionNone <-> scrollPosition st == 0.
Proof.
  unfold transition. split.
  - destruct (Qeq_bool (scrollPosition st) 0) eqn:H; [|discriminate].
    intros _. apply Qeq_bool_iff. exact H.
  - intro H. apply Qeq_bool_iff in H. rewrite H. reflexivity.
Qed.

(** C8, as the code has it.  The transition is disabled exactly when the
    rendered offset is 0 and enabled exactly when it is not: it is disabled
    on every frame on which [animate] resets the offset, and equally on the
    first render and on every frame that leaves the offset at 0. *)
Theorem C8_transition :
  (forall st : State, transition st = TransitionNone <-> scrollPosition st == 0)
  /\ (forall st : State,
         transition st = TransformLinear <-> ~ scrollPosition st == 0)
  /\ (forall (c : Closure) (timestamp : Q) (st : State),
         wraps c st = true ->
         transition (animate c timestamp st) = TransitionNone)
  /\ (forall (rs : list Recognition.t) (s clientHeight scrollHeight : Q),
         transition (mount rs s clientHeight scrollHeight) = TransitionNone)
  /\ (forall (c : Closure) (timestamp : Q) (st : State),
         scrollPosition st == 0 -> wraps c st = false ->
         truthy (lastTimeRef st) = false ->
         transition (animate c timestamp st) = TransitionNone).
Proof.
  split; [exact transition_none|]. split; [|split; [|split]].
  - intro st. split.
    + intros H H0. apply transition_none in H0. congruence.
    + intro H. destruct (transition st) eqn:Ht; [|reflexivity].
      apply transition_none in Ht. contradiction.
  - intros c ts st Hw. apply transition_none.
    rewrite scrollPosition_animate, Hw. reflexivity.
  - intros rs s ch sh. apply transition_none.
    unfold mount, updateDimensions, commit, animation_cleanup.
    change (animation_effect (initial rs s))
      with (set_cleanup false (initial rs s)).
    cbn [cleanup set_cleanup setContentHeight setContainerHeight initial].
    destruct (deps_changed _ _); [|reflexivity].
    unfold animation_effect.
    destruct (Qle_bool _ _); reflexivity.
  - intros c ts st H0 Hw Hl. apply transition_none.
    rewrite scrollPosition_animate, Hw, H0.
    rewrite (delta_first_frame ts st Hl). field.
Qed.

(** The witness of C8: a frame that finds the offset of [overshot] beyond
    the content extent. *)
Lemma C8_transition_witness :
  transition (animate {| c_speed := 1000; c_contentHeight := 10 |} 33 overshot)
  = TransitionNone.
Proof.
  apply (proj1 (proj2 (proj2 C8_transition))). reflexivity.
Defined.

(** C8 as stated fails: the first frame of [overflowing] is no wrap, the
    offset 0 being below the content extent 10, and yet the state it
    renders has the transition disabled. *)
Lemma C8_counterexample :
  frames overflowing = [(1%nat, {| c_speed := 1000; c_contentHeight := 10 |})]
  /\ wraps {| c_speed := 1000; c_contentHeight := 10 |} overflowing = false
  /\ transition (step (Frame 1) overflowing) = TransitionNone.
Proof. repeat split. Qed.

End TickerFacts.

(** ** Card renderer *)

Section CardFacts.
Import Card.

Lemma split_not_nil (sep : ascii) (s : string) : split sep s <> [].
Proof.
  destruct s as [|c s]; cbn [split]; [discriminate|].
  destruct (Ascii.eqb c sep); [discriminate|].
  destruct (split sep s); discriminate.
Qed.

Lemma join_split (s : string) :
  join (map index0 (split " " s)) = word_initials_from true s
  /\ join (map index0 (tl (split " " s))) = word_initials_from false s.
Proof.
  induction s as [|c s [IHt IHf]].
  - split; reflexivity.
  - cbn [split word_initials_from]. destruct (Ascii.eqb c " ").
    + cbn [map join index0 tl]. split; exact IHt.
    + destruct (split " " s) as [|w ws] eqn:Hs.
      * exfalso. exact (split_not_nil _ _ Hs).
      * cbn [map join index0 tl] in *. rewrite IHf. split; reflexivity.
Qed.

Lemma substring_truncate (n : nat) :
  forall s : string, substring 0 n s = truncate n s.
Proof.
  unfold substring. rewrite Nat.sub_0_r.
  induction n as [|n IH]; intros [|c s]; cbn; try reflexivity.
  rewrite IH. reflexivity.
Qed.

Lemma length_truncate (n : nat) :
  forall s : string, (String.length (truncate n s) <= n)%nat.
Proof.
  induction n as [|n IH]; intros [|c s]; cbn; try lia.
  specialize (IH s). lia.
Qed.

(** C10. Whatever the upper-casing function, the initials of a name have
    at most 2 characters and are the first 2 characters of the upper-cased
    concatenation of the first character of each space-separated word. *)
Theorem C10_getInitials :
  forall (toUpperCase : string -> string) (name : string),
    (String.length (getInitials toUpperCase name) <= 2)%nat
    /\ getInitials toUpperCase name
       = truncate 2 (toUpperCase (word_initials name)).
Proof.
  intros up name. unfold getInitials, word_initials.
  rewrite substring_truncate, (proj1 (join_split name)).
  split; [apply length_truncate | reflexivity].
Qed.

(** The initials of a three-word name with a doubled space. *)
Example getInitials_three_words :
  getInitials ascii_toUpperCase "john  von neumann" = "JV"%string.
Proof. reflexivity. Qed.

End CardFacts.

(** ** The frame callback in binary64 *)

Section FrameArithmetic.
Import Frame64.

Lemma not_negative_spec (x : float) :
  (x <? 0)%float = false <-> sign_not_negative (Prim2SF x) = true.
Proof.
  rewrite ltb_spec. change (Prim2SF 0) with (S754_zero false).
  destruct (Prim2SF x) as [s|s| |s m e]; cbn; try tauto; destruct s; cbn;
    split; congruence.
Qed.

Lemma binary_round_aux_sign (m e : Z) (l : location) :
  sign_not_negative (binary_round_aux prec emax false m e l) = true.
Proof.
  unfold binary_round_aux.
  destruct (shr_fexp prec emax m e l) as [mrs' e'].
  destruct (shr_fexp prec emax _ e' loc_Exact) as [mrs'' e''].
  destruct (shr_m mrs''); [reflexivity| |reflexivity].
  destruct (Z.leb e'' (emax - prec)); reflexivity.
Qed.

Lemma binary_round_sign (m : positive) (e : Z) :
  sign_not_negative (binary_round prec emax false m e) = true.
Proof.
  unfold binary_round. destruct (shl_align _ _ _) as [mz ez].
  apply binary_round_aux_sign.
Qed.

Lemma binary_normalize_sign (m e : Z) :
  (0 <= m)%Z -> sign_not_negative (binary_normalize prec emax m e false) = true.
Proof.
  intro H. destruct m as [|p|p]; [reflexivity | apply binary_round_sign | lia].
Qed.

Lemma SFmul_sign (x y : spec_float) :
  sign_not_negative x = true -> sign_not_negative y = true ->
  sign_not_negative (SF64mul x y) = true.
Proof.
  unfold SF64mul, SFmul.
  destruct x as [sx|sx| |sx mx ex], y as [sy|sy| |sy my ey];
    cbn [sign_not_negative]; intros Hx Hy; try reflexivity;
    try (destruct sx; try discriminate); try (destruct sy; try discriminate);
    try reflexivity.
  apply binary_round_aux_sign.
Qed.

Lemma SFdiv_1000_sign (x : spec_float) :
  sign_not_negative x = true ->
  sign_not_negative (SF64div x (Prim2SF 1000)) = true.
Proof.
  change (Prim2SF 1000) with (S754_finite false 8796093022208000 (-43)).
  unfold SF64div, SFdiv.
  destruct x as [sx|sx| |sx mx ex]; cbn [sign_not_negative]; intro Hx;
    try reflexivity; try (destruct sx; try discriminate; reflexivity).
  destruct sx; [discriminate|].
  destruct (SFdiv_core_binary _ _ _ _ _ _) as [[mz ez] lz].
  apply binary_round_aux_sign.
Qed.

Lemma SFadd_sign (x y : spec_float) :
  sign_not_negative x = true -> sign_not_negative y = true ->
  sign_not_negative (SF64add x y) = true.
Proof.
  unfold SF64add, SFadd.
  destruct x as [sx|sx| |sx mx ex], y as [sy|sy| |sy my ey];
    cbn [sign_not_negative]; intros Hx Hy; try reflexivity;
    try (destruct sx; try discriminate); try (destruct sy; try discriminate);
    try reflexivity.
  apply binary_normalize_sign. cbn [cond_Zopp]. lia.
Qed.

Lemma digits2_size (p : positive) : digits2_pos p = Pos.size p.
Proof. induction p as [p IH|p IH|]; cbn; rewrite ?IH; reflexivity. Qed.

Lemma iter_xO_ge (m d : positive) : (m~0 <= Pos.iter xO m d)%positive.
Proof.
  induction d as [|d IH] using Pos.peano_ind.
  - cbn. lia.
  - rewrite Pos.iter_succ. lia.
Qed.

Lemma bounded_facts (m : positive) (e : Z) :
  bounded prec emax m e = true ->
  (Z.pos (Pos.size m) <= 53 /\ -1074 <= e
   /\ (-1074 < e -> Z.pos (Pos.size m) = 53))%Z.
Proof.
  unfold bounded, canonical_mantissa, fexp, SpecFloat.emin, prec, emax.
  rewrite digits2_size. intro H. apply andb_true_iff in H. destruct H as [H _].
  apply Z.eqb_eq in H. lia.
Qed.

Lemma size_bounds (m : positive) :
  (Z.pos m < 2 ^ Z.pos (Pos.size m) <= Z.pos m~0)%Z.
Proof.
  pose proof (Pos.size_gt m) as H1. pose proof (Pos.size_le m) as H2.
  rewrite <- Pos2Z.inj_pow. lia.
Qed.

(** Of two numbers of the format in canonical form, the one with the
    smaller exponent, or with the same exponent and the smaller mantissa,
    has the smaller mantissa once both are aligned. *)
Lemma aligned_le (m1 m2 : positive) (e1 e2 : Z) :
  bounded prec emax m1 e1 = true -> bounded prec emax m2 e2 = true ->
  (e1 < e2)%Z \/ (e1 = e2 /\ (m1 <= m2)%positive) ->
  (Z.pos (fst (shl_align m1 e1 (Z.min e1 e2)))
   <= Z.pos (fst (shl_align m2 e2 (Z.min e1 e2))))%Z.
Proof.
  intros B1 B2 H.
  replace (Z.min e1 e2) with e1 by lia.
  unfold shl_align. rewrite Z.sub_diag. cbn [fst].
  destruct (e1 - e2)%Z as [|d|d] eqn:Hd; cbn [fst]; [lia | lia |].
  destruct H as [Hlt|[Heq _]]; [|lia].
  destruct (bounded_facts m1 e1 B1) as (S1 & L1 & _).
  destruct (bounded_facts m2 e2 B2) as (_ & _ & S2).
  specialize (S2 ltac:(lia)).
  pose proof (size_bounds m1) as [U1 _]. pose proof (size_bounds m2) as [_ U2].
  pose proof (iter_xO_ge m2 d) as Hi.
  assert (2 ^ Z.pos (Pos.size m1) <= 2 ^ 53)%Z by (apply Z.pow_le_mono_r; lia).
  rewrite S2 in U2. lia.
Qed.

Lemma SFsub_sign (x y : spec_float) :
  valid_binary x = true -> valid_binary y = true ->
  SFleb y x = true ->
  sign_not_negative (SF64sub x y) = true.
Proof.
  unfold SF64sub, SFsub, SFleb, SFcompare.
  destruct x as [sx|sx| |sx mx ex], y as [sy|sy| |sy my ey];
    cbn [sign_not_negative valid_binary]; intros Vx Vy H; try reflexivity;
    try discriminate;
    try (destruct sx, sy; try discriminate; reflexivity);
    try (destruct sx; try discriminate; reflexivity);
    try (destruct sy; try discriminate; reflexivity).
  destruct sx, sy; try discriminate; apply binary_normalize_sign;
    cbn [cond_Zopp]; change (IntDef.Z.min ex ey) with (Z.min ex ey).
  - assert (Hm : (ex < ey)%Z \/ (ex = ey /\ (mx <= my)%positive)).
    { destruct (Z.compare ey ex) eqn:Hc; try discriminate.
      - apply Z.compare_eq in Hc. right. split; [lia|].
        change (Pos.compare_cont Eq my mx) with (Pos.compare my mx) in H.
        destruct (Pos.compare my mx) eqn:Hp; try discriminate.
        + apply Pos.compare_eq in Hp. lia.
        + apply Pos.compare_gt_iff in Hp. lia.
      - apply Z.compare_gt_iff in Hc. left. lia. }
    pose proof (aligned_le mx my ex ey Vx Vy Hm). lia.
  - pose proof (Pos2Z.is_pos (fst (shl_align mx ex (Z.min ex ey)))).
    pose proof (Pos2Z.is_pos (fst (shl_align my ey (Z.min ex ey)))). lia.
  - assert (Hm : (ey < ex)%Z \/ (ey = ex /\ (my <= mx)%positive)).
    { destruct (Z.compare ey ex) eqn:Hc; try discriminate.
      - apply Z.compare_eq in Hc. right. split; [lia|].
        change (Pos.compare_cont Eq my mx) with (Pos.compare my mx) in H.
        destruct (Pos.compare my mx) eqn:Hp; try discriminate.
        + apply Pos.compare_eq in Hp. lia.
        + assert (my < mx)%positive by exact Hp. lia.
      - left. exact Hc. }
    pose proof (aligned_le my mx ey ex Vy Vx Hm) as Hle.
    rewrite Z.min_comm in Hle. lia.
Qed.

Lemma SFsub_self_sign (x : spec_float) :
  sign_not_negative (SF64sub x x) = true.
Proof.
  unfold SF64sub, SFsub.
  destruct x as [s|s| |s m e]; cbn [sign_not_negative]; try reflexivity;
    try (destruct s; reflexivity).
  rewrite Z.sub_diag. reflexivity.
Qed.

Lemma shr_1_m (mrs : shr_record) :
  (0 <= shr_m mrs)%Z -> shr_m (shr_1 mrs) = (shr_m mrs / 2)%Z.
Proof.
  destruct mrs as [m r s]. cbn [shr_m]. intro H.
  destruct m as [|[p|p|]|p]; cbn [shr_1 shr_m]; try lia;
    rewrite <- Z.div2_div; reflexivity.
Qed.

Lemma iter_pos_shr_m (p : positive) :
  forall mrs : shr_record,
    (0 <= shr_m mrs)%Z ->
    shr_m (iter_pos shr_1 p mrs) = (shr_m mrs / 2 ^ Z.pos p)%Z.
Proof.
  induction p as [p IH|p IH|]; intros mrs H; cbn [iter_pos].
  - pose proof (Z.pow_pos_nonneg 2 (Z.pos p) ltac:(lia) ltac:(lia)) as Hp.
    assert (H1 : (0 <= shr_m (shr_1 mrs))%Z).
    { rewrite shr_1_m by exact H. apply Z.div_pos; lia. }
    assert (H2 : (0 <= shr_m (iter_pos shr_1 p (shr_1 mrs)))%Z).
    { rewrite IH by exact H1. apply Z.div_pos; lia. }
    rewrite IH by exact H2. rewrite IH by exact H1. rewrite shr_1_m by exact H.
    rewrite !Z.div_div by lia.
    f_equal. rewrite Pos2Z.inj_xI.
    replace (2 * Z.pos p + 1)%Z with (1 + Z.pos p + Z.pos p)%Z by lia.
    rewrite !Z.pow_add_r by lia. change (2 ^ 1)%Z with 2%Z. lia.
  - pose proof (Z.pow_pos_nonneg 2 (Z.pos p) ltac:(lia) ltac:(lia)) as Hp.
    assert (H2 : (0 <= shr_m (iter_pos shr_1 p mrs))%Z).
    { rewrite IH by exact H. apply Z.div_pos; lia. }
    rewrite IH by exact H2. rewrite IH by exact H.
    rewrite Z.div_div by lia.
    f_equal. rewrite Pos2Z.inj_xO. rewrite <- Z.pow_add_r by lia. f_equal. lia.
  - rewrite shr_1_m by exact H. reflexivity.
Qed.

Lemma fexp_fexp64 (z : Z) : fexp prec emax z = fexp64 z.
Proof. reflexivity. Qed.

Lemma shr_m_of_loc (m : Z) (l : location) : shr_m (shr_record_of_loc m l) = m.
Proof. destruct l as [|[| |]]; reflexivity. Qed.

Lemma size_lower (m : positive) : (2 ^ (Z.pos (Pos.size m) - 1) <= Z.pos m)%Z.
Proof.
  pose proof (size_bounds m) as [_ H].
  replace (Z.pos (Pos.size m)) with (1 + (Z.pos (Pos.size m) - 1))%Z in H by lia.
  rewrite Z.pow_add_r in H by lia. change (2 ^ 1)%Z with 2%Z in H. lia.
Qed.

Lemma shr_fexp_spec (m : positive) (e : Z) (l : location)
      (mrs : shr_record) (e' : Z) :
  shr_fexp prec emax (Z.pos m) e l = (mrs, e') ->
  (-1074 <= e)%Z ->
  e' = Z.max e (fexp64 (Z.pos (Pos.size m) + e))
  /\ shr_m mrs = (Z.pos m / 2 ^ (e' - e))%Z
  /\ (1 <= shr_m mrs)%Z.
Proof.
  unfold shr_fexp, shr. cbn [Zdigits2]. rewrite digits2_size, fexp_fexp64.
  intros H He.
  destruct (fexp64 (Z.pos (Pos.size m) + e) - e)%Z as [|p|p] eqn:Hn;
    injection H as <- <-; rewrite ?shr_m_of_loc.
  - split; [lia|]. replace (e - e)%Z with 0%Z by lia.
    rewrite Z.div_1_r. split; [reflexivity | lia].
  - assert (Hp : Z.pos p = (Z.pos (Pos.size m) - 53)%Z) by (unfold fexp64 in Hn; lia).
    split; [unfold fexp64 in *; lia|].
    rewrite iter_pos_shr_m by (rewrite shr_m_of_loc; lia).
    rewrite shr_m_of_loc. replace (e + Z.pos p - e)%Z with (Z.pos p) by lia.
    split; [reflexivity|].
    apply Z.div_le_lower_bound; [apply Z.pow_pos_nonneg; lia|].
    pose proof (size_lower m) as Hl.
    assert (2 ^ Z.pos p <= 2 ^ (Z.pos (Pos.size m) - 1))%Z
      by (apply Z.pow_le_mono_r; lia).
    lia.
  - split; [unfold fexp64 in *; lia|]. replace (e - e)%Z with 0%Z by lia.
    rewrite Z.div_1_r. split; [reflexivity | lia].
Qed.

Lemma iter_xO_spec (m d : positive) :
  Z.pos (Pos.iter xO m d) = (Z.pos m * 2 ^ Z.pos d)%Z
  /\ Z.pos (Pos.size (Pos.iter xO m d)) = (Z.pos (Pos.size m) + Z.pos d)%Z.
Proof.
  induction d as [|d [IH1 IH2]] using Pos.peano_ind.
  - cbn [Pos.iter Pos.size]. split; lia.
  - rewrite Pos.iter_succ. cbn [Pos.size]. rewrite Pos2Z.inj_xO, IH1.
    rewrite Pos2Z.inj_succ, Z.pow_succ_r by lia. split; lia.
Qed.

Lemma shl_align_spec (m : positive) (e e' : Z) :
  snd (shl_align m e e') = Z.min e e'
  /\ Z.pos (fst (shl_align m e e')) = (Z.pos m * 2 ^ (e - Z.min e e'))%Z
  /\ (Z.pos (Pos.size (fst (shl_align m e e'))) + Z.min e e'
      = Z.pos (Pos.size m) + e)%Z.
Proof.
  unfold shl_align. destruct (e' - e)%Z as [|d|d] eqn:Hd; cbn [fst snd].
  - replace (Z.min e e') with e by lia. rewrite Z.sub_diag. cbn. lia.
  - replace (Z.min e e') with e by lia. rewrite Z.sub_diag. cbn. lia.
  - replace (Z.min e e') with e' by lia.
    destruct (iter_xO_spec m d) as [H1 H2]. rewrite H1, H2.
    replace (e - e')%Z with (Z.pos d) by lia. lia.
Qed.

Lemma round_nearest_even_ge (m : Z) (l : location) :
  (m <= round_nearest_even m l)%Z.
Proof.
  destruct l as [|[| |]]; cbn [round_nearest_even]; try lia.
  destruct (Z.even m); lia.
Qed.

Lemma canonical_exponent (m : positive) (e : Z) :
  bounded prec emax m e = true -> fexp64 (Z.pos (Pos.size m) + e) = e.
Proof.
  unfold bounded, canonical_mantissa. rewrite digits2_size, fexp_fexp64.
  intro H. apply andb_true_iff in H. destruct H as [H _].
  apply Z.eqb_eq in H. exact H.
Qed.

Lemma fexp64_mono (a b : Z) : (a <= b)%Z -> (fexp64 a <= fexp64 b)%Z.
Proof. unfold fexp64. lia. Qed.

Lemma fexp64_emin (a : Z) : (-1074 <= fexp64 a)%Z.
Proof. unfold fexp64. lia. Qed.

Lemma binary_round_not_below (M mx : positive) (e0 ex : Z) :
  bounded prec emax mx ex = true ->
  (-1074 <= e0 <= ex)%Z ->
  (Z.pos mx * 2 ^ (ex - e0) <= Z.pos M)%Z ->
  SFltb (binary_round prec emax false M e0) (S754_finite false mx ex) = false.
Proof.
  intros Bx He HM.
  pose proof (canonical_exponent mx ex Bx) as Cx.
  unfold binary_round. rewrite digits2_size, fexp_fexp64.
  set (t := fexp64 (Z.pos (Pos.size M) + e0)).
  pose proof (shl_align_spec M e0 t) as (S1 & S2 & S3).
  destruct (shl_align M e0 t) as [mz e1]. cbn [fst snd] in S1, S2, S3.
  assert (Ht : (-1074 <= t)%Z) by apply fexp64_emin.
  assert (He1 : (-1074 <= e1 <= e0)%Z) by lia.
  (* sizes: the sum is at least as large as x *)
  assert (Hsz : (Z.pos (Pos.size mx) + ex <= Z.pos (Pos.size M) + e0)%Z).
  { pose proof (size_lower mx) as L. pose proof (size_bounds M) as [U _].
    assert (2 ^ (Z.pos (Pos.size mx) - 1) * 2 ^ (ex - e0) <= Z.pos M)%Z.
    { pose proof (Z.pow_pos_nonneg 2 (ex - e0) ltac:(lia) ltac:(lia)). nia. }
    rewrite <- Z.pow_add_r in H by lia.
    assert (2 ^ (Z.pos (Pos.size mx) - 1 + (ex - e0)) < 2 ^ Z.pos (Pos.size M))%Z by lia.
    apply Z.pow_lt_mono_r_iff in H0; lia. }
  assert (Htx : (ex <= t)%Z).
  { rewrite <- Cx. apply fexp64_mono. exact Hsz. }
  unfold binary_round_aux.
  destruct (shr_fexp prec emax (Z.pos mz) e1 loc_Exact) as [mrs' e'] eqn:E1.
  destruct (shr_fexp_spec mz e1 loc_Exact mrs' e' E1 ltac:(lia)) as (A1 & A2 & A3).
  pose proof (round_nearest_even_ge (shr_m mrs') (loc_of_shr_record mrs')) as Hr.
  destruct (round_nearest_even (shr_m mrs') (loc_of_shr_record mrs')) as [|q|q];
    try lia.
  destruct (shr_fexp prec emax (Z.pos q) e' loc_Exact) as [mrs'' e''] eqn:E2.
  assert (He' : (-1074 <= e')%Z) by lia.
  destruct (shr_fexp_spec q e' loc_Exact mrs'' e'' E2 He') as (B1 & B2 & B3).
  assert (Het : (t <= e')%Z).
  { rewrite A1. replace (Z.pos (Pos.size mz) + e1)%Z
      with (Z.pos (Pos.size M) + e0)%Z by lia. fold t. lia. }
  destruct (shr_m mrs'') as [|m''|m''] eqn:Hm''; try lia.
  destruct (Z.leb e'' (emax - prec)); [|reflexivity].
  unfold SFltb, SFcompare.
  destruct (Z.compare e'' ex) eqn:Hc; try reflexivity.
  - apply Z.compare_eq in Hc.
    assert (e' = ex) by lia. assert (e'' = e') by lia.
    replace (e'' - e')%Z with 0%Z in B2 by lia. rewrite Z.div_1_r in B2.
    assert (Hq : (Z.pos mx <= shr_m mrs')%Z).
    { rewrite A2. apply Z.div_le_lower_bound; [apply Z.pow_pos_nonneg; lia|].
      rewrite S2. replace (Z.min e0 t) with e1 by lia.
      replace (e' - e1)%Z with ((ex - e0) + (e0 - e1))%Z by lia.
      rewrite Z.pow_add_r by lia.
      pose proof (Z.pow_pos_nonneg 2 (e0 - e1) ltac:(lia) ltac:(lia)). nia. }
    change (Pos.compare_cont Eq m'' mx) with (Pos.compare m'' mx).
    destruct (Pos.compare m'' mx) eqn:Hp; try reflexivity.
    assert (m'' < mx)%positive by exact Hp. lia.
  - assert (e'' < ex)%Z by exact Hc. lia.
Qed.

Lemma SFltb_refl_false (x : spec_float) : SFltb x x = false.
Proof.
  unfold SFltb, SFcompare. destruct x as [s|s| |s m e]; try reflexivity.
  - destruct s; reflexivity.
  - destruct s; rewrite Z.compare_refl;
      change (Pos.compare_cont Eq m m) with (Pos.compare m m);
      rewrite Pos.compare_refl; reflexivity.
Qed.

Lemma SFadd_not_below (x y : spec_float) :
  valid_binary x = true -> valid_binary y = true ->
  sign_not_negative x = true -> sign_not_negative y = true ->
  SFltb (SF64add x y) x = false.
Proof.
  unfold SF64add, SFadd.
  destruct x as [sx|sx| |sx mx ex], y as [sy|sy| |sy my ey];
    cbn [sign_not_negative valid_binary]; intros Vx Vy Hx Hy;
    try (destruct sx; try discriminate); try (destruct sy; try discriminate);
    try reflexivity; try apply SFltb_refl_false.
  destruct (bounded_facts mx ex Vx) as (_ & Lx & _).
  destruct (bounded_facts my ey Vy) as (_ & Ly & _).
  cbn [cond_Zopp]. change (IntDef.Z.min ex ey) with (Z.min ex ey).
  pose proof (shl_align_spec mx ex (Z.min ex ey)) as (_ & Sx & _).
  replace (Z.min ex (Z.min ex ey)) with (Z.min ex ey) in Sx by lia.
  change (IntDef.Z.add (Z.pos ?a) (Z.pos ?b)) with (Z.pos (a + b)).
  cbn [binary_normalize].
  apply binary_round_not_below; [exact Vx | lia |].
  rewrite <- Sx. lia.
Qed.

Local Open Scope float_scope.

Lemma add_not_negative (x y : float) :
  (x <? 0) = false -> (y <? 0) = false -> (x + y <? 0) = false.
Proof.
  rewrite !not_negative_spec, add_spec. apply SFadd_sign.
Qed.

Lemma mul_not_negative (x y : float) :
  (x <? 0) = false -> (y <? 0) = false -> (x * y <? 0) = false.
Proof.
  rewrite !not_negative_spec, mul_spec. apply SFmul_sign.
Qed.

Lemma div_1000_not_negative (x : float) :
  (x <? 0) = false -> (x / 1000 <? 0) = false.
Proof.
  rewrite !not_negative_spec, div_spec. apply SFdiv_1000_sign.
Qed.

Lemma sub_not_negative (x y : float) :
  (y <=? x) = true -> (x - y <? 0) = false.
Proof.
  rewrite leb_spec, not_negative_spec, sub_spec.
  apply SFsub_sign; apply Prim2SF_valid.
Qed.

Lemma sub_self_not_negative (x : float) : (x - x <? 0) = false.
Proof.
  rewrite not_negative_spec, sub_spec. apply SFsub_self_sign.
Qed.

Lemma add_not_below (x y : float) :
  (x <? 0) = false -> (y <? 0) = false -> (x + y <? x) = false.
Proof.
  rewrite !not_negative_spec, ltb_spec, add_spec.
  apply SFadd_not_below; apply Prim2SF_valid.
Qed.

Lemma delta_not_negative (timestamp : float) (st : State) :
  match lastTimeRef st with
  | Some l => (l <=? timestamp) = true
  | None => True
  end ->
  (delta timestamp st <? 0) = false.
Proof.
  unfold delta, last_time. destruct (lastTimeRef st) as [l|]; intro H.
  - destruct (truthy (Some l)).
    + apply sub_not_negative. exact H.
    + apply sub_self_not_negative.
  - apply sub_self_not_negative.
Qed.

Lemma animate_not_negative (c : Closure) (timestamp : float) (st : State) :
  (c_speed c <? 0) = false ->
  match lastTimeRef st with
  | Some l => (l <=? timestamp) = true
  | None => True
  end ->
  (scrollPosition st <? 0) = false ->
  (scrollPosition (animate c timestamp st) <? 0) = false.
Proof.
  intros Hs Hl Hp. unfold animate. cbn [scrollPosition].
  destruct (wraps c st); [reflexivity|].
  apply add_not_negative; [exact Hp|]. unfold pixelsToScroll.
  apply mul_not_negative.
  - apply div_1000_not_negative. exact Hs.
  - apply delta_not_negative. exact Hl.
Qed.

Lemma run_not_negative (frames : list (Closure * float)) :
  forall st : State,
    clocked (lastTimeRef st) frames ->
    (scrollPosition st <? 0) = false ->
    (scrollPosition (run frames st) <? 0) = false.
Proof.
  induction frames as [|[c ts] rest IH]; intros st Hc Hp.
  - exact Hp.
  - destruct Hc as (Hs & Hl & Hrest). cbn [run fold_left fst snd].
    apply IH.
    + exact Hrest.
    + apply animate_not_negative; assumption.
Qed.

(** C1, as the code has it.  A frame that finds the previous offset at or
    beyond the content extent sets the offset to exactly 0.  Any other frame
    sets it to the previous offset plus (speed / 1000) * elapsed, each
    operation a binary64 operation, whatever that sum is: the elapsed time
    is the timestamp minus the last-frame timestamp when there is one that
    is not falsy, and the timestamp minus itself otherwise.  Every frame
    records its timestamp.  When the speed is not negative and the
    timestamp is not less than the last one, such a frame does not take an
    offset that is not negative below its previous value.  After any
    sequence of frames whose speeds are not negative and whose timestamps do
    not go back, the offset is not negative. *)
Theorem C1_frame_offset :
  (forall (c : Closure) (timestamp : float) (st : State),
      (c_contentHeight c <=? scrollPosition st) = true ->
      scrollPosition (animate c timestamp st) = 0)
  /\ (forall (c : Closure) (timestamp l : float) (st : State),
         (c_contentHeight c <=? scrollPosition st) = false ->
         lastTimeRef st = Some l -> truthy (Some l) = true ->
         scrollPosition (animate c timestamp st)
         = scrollPosition st + c_speed c / 1000 * (timestamp - l))
  /\ (forall (c : Closure) (timestamp : float) (st : State),
         (c_contentHeight c <=? scrollPosition st) = false ->
         truthy (lastTimeRef st) = false ->
         scrollPosition (animate c timestamp st)
         = scrollPosition st + c_speed c / 1000 * (timestamp - timestamp))
  /\ (forall (c : Closure) (timestamp : float) (st : State),
         lastTimeRef (animate c timestamp st) = Some timestamp)
  /\ (forall (c : Closure) (timestamp : float) (st : State),
         (c_contentHeight c <=? scrollPosition st) = false ->
         (c_speed c <? 0) = false ->
         match lastTimeRef st with
         | Some l => (l <=? timestamp) = true
         | None => True
         end ->
         (scrollPosition st <? 0) = false ->
         (scrollPosition (animate c timestamp st) <? scrollPosition st) = false)
  /\ (forall frames : list (Closure * float),
         clocked None frames ->
         (scrollPosition (run frames initial) <? 0) = false).
Proof.
  split; [|split; [|split; [|split; [|split]]]].
  - intros c ts st H. unfold animate, wraps. cbn [scrollPosition].
    rewrite H. reflexivity.
  - intros c ts l st H Hl Ht. unfold animate, wraps. cbn [scrollPosition].
    rewrite H. unfold pixelsToScroll, delta, last_time. rewrite Hl, Ht.
    reflexivity.
  - intros c ts st H Ht. unfold animate, wraps. cbn [scrollPosition].
    rewrite H. unfold pixelsToScroll, delta, last_time.
    destruct (lastTimeRef st) as [l|]; [rewrite Ht|]; reflexivity.
  - reflexivity.
  - intros c ts st H Hs Hl Hp. unfold animate, wraps. cbn [scrollPosition].
    rewrite H. apply add_not_below; [exact Hp|]. unfold pixelsToScroll.
    apply mul_not_negative.
    + apply div_1000_not_negative. exact Hs.
    + apply delta_not_negative. exact Hl.
  - intros frames Hc. apply run_not_negative; [exact Hc | reflexivity].
Qed.

(** The witness of C1: at 1000 px/s, the frame at 17 ms that follows a
    frame at 1 ms moves the offset from 0 to 16. *)
Lemma C1_frame_offset_witness :
  scrollPosition
    (animate fast 17 {| scrollPosition := 0; lastTimeRef := Some 1 |})
  = 0 + 1000 / 1000 * (17 - 1)
  /\ 0 + 1000 / 1000 * (17 - 1) = 16.
Proof.
  split; [|reflexivity].
  apply (proj1 (proj2 C1_frame_offset) fast 17 1
               {| scrollPosition := 0; lastTimeRef := Some 1 |});
    reflexivity.
Defined.

(** C1 as stated fails.  With content extent 10 and speed 1000 px/s, the
    frames at 1 ms and 17 ms leave the offset at 16: it has reached the
    content extent and is not wrapped to 0.  At 100 px/s a frame 6 ms after
    the last one advances the offset from 0 to a number that is not 6/10.
    At 2^-60 px/s a frame 16 ms after the last one leaves the offset at 1,
    and the first frame leaves it at 0: it does not increase. *)
Lemma C1_counterexample :
  scrollPosition (run [(fast, 1); (fast, 17)] initial) = 16
  /\ (c_contentHeight fast <=? scrollPosition (run [(fast, 1); (fast, 17)] initial))
     = true
  /\ (scrollPosition (run [(fast, 1); (fast, 17)] initial) =? 0) = false
  /\ (scrollPosition
        (animate steady 7 {| scrollPosition := 0; lastTimeRef := Some 1 |})
      =? 100 * 6 / 1000) = false
  /\ scrollPosition
       (animate crawling 17 {| scrollPosition := 1; lastTimeRef := Some 1 |})
     = 1
  /\ scrollPosition (animate fast 1 initial) = 0.
Proof. repeat split. Qed.

End FrameArithmetic.

(** * Further properties *)

(** ** Feed loader: the shape of a run *)

Section FeedLoaderRuns.
Import FeedLoader.

Lemma length_skips (n : nat) : forall start : Z, List.length (skips start n) = n.
Proof.
  induction n as [|n IH]; intro start; cbn [skips List.length];
    [reflexivity | rewrite IH; reflexivity].
Qed.

Lemma collect_requests (listBonuses : Api) :
  forall (fuel : nat) (skip : Z) (results : list BonusResult.t),
    requests (collect fuel listBonuses skip results)
    = skips skip (List.length (requests (collect fuel listBonuses skip results)))
    /\ (List.length (requests (collect fuel listBonuses skip results)) <= fuel)%nat.
Proof.
  induction fuel as [|fuel IH]; intros skip results.
  - split; [reflexivity | apply le_n].
  - cbn [collect].
    destruct (negb (success (listBonuses skip))); [split; [reflexivity | cbn; lia]|].
    destruct (0 <? List.length (result (listBonuses skip)))%nat;
      [|split; [reflexivity | cbn; lia]].
    cbn [requests List.length skips].
    destruct (IH (skip + 100)%Z (results ++ result (listBonuses skip)))
      as [Hreq Hlen].
    split; [f_equal; exact Hreq | lia].
Qed.

(** X1. The requests of a run are made at skip 0, 100, 200, ... without gap or
    repetition, whatever the sizes of the pages received, at most one per
    iteration; a run that has ended has made at least one request. *)
Theorem getBonuses_requests_progress :
  forall (listBonuses : Api) (fuel : nat),
    requests (getBonuses fuel listBonuses)
    = skips 0 (List.length (requests (getBonuses fuel listBonuses)))
    /\ (List.length (requests (getBonuses fuel listBonuses)) <= fuel)%nat
    /\ (outcome (getBonuses fuel listBonuses) <> Pending ->
        (1 <= List.length (requests (getBonuses fuel listBonuses)))%nat).
Proof.
  intros api fuel. unfold getBonuses. cbn [requests outcome].
  destruct (collect_requests api fuel 0 []) as [Hreq Hlen].
  split; [exact Hreq|]. split; [exact Hlen|].
  destruct fuel as [|fuel]; [intro H; exfalso; apply H; reflexivity|].
  intros _. cbn [collect].
  destruct (negb (success (api 0%Z))); [cbn; lia|].
  destruct (0 <? List.length (result (api 0%Z)))%nat; cbn; lia.
Qed.

Lemma full_pages_always (listBonuses : Api) :
  (forall skip : Z, success (listBonuses skip) = true
                    /\ result (listBonuses skip) <> []) ->
  forall (n : nat) (start : Z), full_pages listBonuses start n.
Proof.
  intros H n. induction n as [|n IH]; intro start; cbn [full_pages].
  - exact I.
  - destruct (H start) as [Hs Hne]. auto.
Qed.

(** X2. Against an API that answers every request successfully with at least
    one record the loop never ends: however many iterations it is given,
    it is still running, having made one request per iteration. *)
Theorem getBonuses_endless :
  forall listBonuses : Api,
    (forall skip : Z, success (listBonuses skip) = true
                      /\ result (listBonuses skip) <> []) ->
    forall fuel : nat,
      getBonuses fuel listBonuses
      = {| requests := skips 0 fuel; outcome := Pending |}.
Proof.
  intros api H fuel. unfold getBonuses.
  destruct (collect_full_pages api fuel 0 0 [] (full_pages_always api H fuel 0%Z))
    as [Hr Ho].
  rewrite Nat.add_0_r in Hr, Ho. cbn [collect requests outcome] in Hr, Ho.
  rewrite app_nil_r in Hr. rewrite Hr, Ho. reflexivity.
Qed.

(** The witness: [MoreSamples.api_endless] after seven iterations. *)
Lemma getBonuses_endless_witness :
  getBonuses 7 MoreSamples.api_endless
  = {| requests := skips 0 7; outcome := Pending |}.
Proof.
  apply (getBonuses_endless MoreSamples.api_endless).
  intro skip. split; [reflexivity | discriminate].
Defined.

(** X4. The output holds exactly the reshaped records received in "BD": each
    output record stems from such a raw record and each such raw record is
    in the output.  It is never longer than the raw sequence; it is the
    whole reshaped sequence when every record was received in "BD" and
    empty when none was. *)
Theorem filter_reshape_members :
  forall raw : list BonusResult.t,
    (forall r : Recognition.t,
        In r (filter_reshape raw)
        <-> exists b : BonusResult.t,
            In b raw /\ User.country (BonusResult.receiver b) = "BD"
            /\ r = reshape b)
    /\ (List.length (filter_reshape raw) <= List.length raw)%nat
    /\ (forallb receiver_in_BD raw = true -> filter_reshape raw = map reshape raw)
    /\ (existsb receiver_in_BD raw = false -> filter_reshape raw = []).
Proof.
  intro raw. split; [|split; [|split]].
  - intro r. unfold filter_reshape. rewrite in_map_iff. split.
    + intros (b & <- & Hin). apply filter_In in Hin. destruct Hin as [Hin HBD].
      exists b. split; [exact Hin|]. split; [|reflexivity].
      apply String.eqb_eq. exact HBD.
    + intros (b & Hin & HBD & ->). exists b. split; [reflexivity|].
      apply filter_In. split; [exact Hin|]. apply String.eqb_eq. exact HBD.
  - unfold filter_reshape. rewrite length_map. apply filter_length_le.
  - unfold filter_reshape. induction raw as [|b raw IH]; [reflexivity|].
    cbn [forallb filter]. intro H. apply andb_true_iff in H.
    destruct H as [Hb Hraw]. rewrite Hb. cbn [map]. f_equal.
    rewrite <- (IH Hraw). reflexivity.
  - unfold filter_reshape. induction raw as [|b raw IH]; [reflexivity|].
    cbn [existsb filter]. intro H. apply orb_false_iff in H.
    destruct H as [Hb Hraw]. rewrite Hb. exact (IH Hraw).
Qed.

(** The witness: a sequence of records received in "BD" only. *)
Lemma filter_reshape_members_witness :
  filter_reshape [Sample.bonus_BD; Sample.bonus_BD]
  = map reshape [Sample.bonus_BD; Sample.bonus_BD].
Proof.
  apply (proj1 (proj2 (proj2 (filter_reshape_members
                                [Sample.bonus_BD; Sample.bonus_BD])))).
  reflexivity.
Defined.

Lemma length_pages_le (listBonuses : Api) (limit : nat) :
  (forall skip : Z, (List.length (result (listBonuses skip)) <= limit)%nat) ->
  forall (n : nat) (start : Z),
    (List.length (pages listBonuses start n) <= limit * n)%nat.
Proof.
  intros H n. induction n as [|n IH]; intro start; cbn [pages List.length].
  - lia.
  - rewrite length_app. specialize (H start). specialize (IH (start + 100)%Z). lia.
Qed.

(** X5. When the server keeps to the page size of 100, a run that returns
    after [k] requests returns at most 100 (k - 1) records: the last
    request is the one answered by the empty page. *)
Theorem getBonuses_size_bound :
  forall (listBonuses : Api) (fuel : nat) (out : list Recognition.t),
    (forall skip : Z, (List.length (result (listBonuses skip)) <= 100)%nat) ->
    outcome (getBonuses fuel listBonuses) = Returned out ->
    (List.length out
     <= 100 * (List.length (requests (getBonuses fuel listBonuses)) - 1))%nat.
Proof.
  intros api fuel out Hlimit Hout. unfold getBonuses in *.
  cbn [requests outcome] in *.
  destruct (outcome (collect fuel api 0 [])) as [raw| |] eqn:Hraw;
    try discriminate.
  injection Hout as <-.
  destruct (collect_returned api fuel 0 [] raw Hraw)
    as (n & _ & _ & _ & Hreq & ->).
  rewrite Hreq, length_skips. cbn [app].
  pose proof (proj1 (proj2 (filter_reshape_members (pages api 0 n)))) as H1.
  pose proof (length_pages_le api 100 Hlimit n 0%Z) as H2. lia.
Qed.

(** The witness: the 137 records received in "BD" among the 237 of
    [Sample.api_237], returned after four requests. *)
Lemma getBonuses_size_bound_witness :
  (List.length (repeat (reshape Sample.bonus_BD) 137)
   <= 100 * (List.length (requests (getBonuses 4 Sample.api_237)) - 1))%nat.
Proof.
  apply (getBonuses_size_bound Sample.api_237 4).
  - intro skip. unfold Sample.api_237.
    destruct (skip =? 0)%Z; [cbn [result]; rewrite repeat_length; lia|].
    destruct (skip =? 100)%Z; [cbn [result]; rewrite repeat_length; lia|].
    destruct (skip =? 200)%Z; [cbn [result]; rewrite repeat_length; lia|].
    cbn [result List.length]; lia.
  - vm_compute. reflexivity.
Defined.

End FeedLoaderRuns.

(** ** The page: what is shown after the load *)

Section PageFacts.
Import FeedLoader.
Import IndexView.

Lemma filter_nil_existsb (A : Type) (f : A -> bool) (l : list A) :
  existsb f l = false <-> filter f l = [].
Proof.
  induction l as [|a l IH]; cbn [existsb filter]; [tauto|].
  destruct (f a); cbn [orb]; [|exact IH].
  split; discriminate.
Qed.

(** X6. After the load the page shows the spinner exactly while the run is
    pending.  Every failure, whatever was thrown, shows the one message
    "Failed to load recognitions"; in particular a page answered with
    success false does.  A run that returns shows the ticker, at speed 25,
    on the filtered and reshaped records when at least one raw record was
    received in "BD", and otherwise the empty state, also when records were
    fetched. *)
Theorem page_content_after_load :
  (forall (listBonuses : Api) (fuel : nat),
      content (load fuel listBonuses) = Spinner
      <-> outcome (getBonuses fuel listBonuses) = Pending)
  /\ (forall message : string,
         content (Index.fetchRecognitions (Thrown message) Index.initial)
         = ErrorPanel "Failed to load recognitions")
  /\ (forall (listBonuses : Api) (fuel : nat) (k : Z),
         In k (requests (getBonuses fuel listBonuses)) ->
         success (listBonuses k) = false ->
         content (load fuel listBonuses)
         = ErrorPanel "Failed to load recognitions")
  /\ (forall (listBonuses : Api) (fuel : nat) (raw : list BonusResult.t),
         outcome (collect fuel listBonuses 0 []) = Returned raw ->
         content (load fuel listBonuses)
         = if existsb receiver_in_BD raw
           then TickerPanel (filter_reshape raw) 25
           else NothingToShow).
Proof.
  split; [|split; [|split]].
  - intros api fuel. unfold load.
    destruct (outcome (getBonuses fuel api)) as [rs|msg|]; cbn.
    + destruct rs; split; discriminate.
    + split; discriminate.
    + split; reflexivity.
  - reflexivity.
  - intros api fuel k Hin Hk. unfold load, getBonuses in *.
    cbn [requests outcome] in *.
    destruct (collect_failure api fuel 0 [] k Hin Hk) as [Ho _].
    rewrite Ho. reflexivity.
  - intros api fuel raw Hraw. unfold load, getBonuses. cbn [outcome].
    rewrite Hraw. unfold content. cbn.
    destruct (existsb receiver_in_BD raw) eqn:He.
    + destruct (filter_reshape raw) as [|r rs] eqn:Hf; [|reflexivity].
      exfalso. unfold filter_reshape in Hf. apply map_eq_nil in Hf.
      apply filter_nil_existsb in Hf. congruence.
    + apply filter_nil_existsb in He. unfold filter_reshape. rewrite He.
      reflexivity.
Qed.

(** The witness: two records were fetched, both received in "US"; the page
    shows the empty state. *)
Lemma page_content_after_load_witness :
  content (load 3 MoreSamples.api_elsewhere)
  = if existsb receiver_in_BD [Sample.bonus_US; Sample.bonus_US']
    then TickerPanel (filter_reshape [Sample.bonus_US; Sample.bonus_US']) 25
    else NothingToShow.
Proof.
  apply (proj2 (proj2 (proj2 page_content_after_load))
               MoreSamples.api_elsewhere 3%nat).
  reflexivity.
Defined.

(** X7. Whenever the page shows the ticker, it passes it the loaded records,
    which are not empty, and the speed 25; the ticker so mounted is in a
    reachable state whatever it measures, and its display list has between
    one and three cards more than the records. *)
Theorem page_ticker_input :
  forall (st : Index.State) (rs : list Recognition.t) (s : Q),
    content st = TickerPanel rs s ->
    rs = Index.recognitions st /\ rs <> [] /\ s = 25
    /\ (forall clientHeight scrollHeight : Q,
          Ticker.reachable (Ticker.mount rs s clientHeight scrollHeight))
    /\ (List.length rs < List.length (Ticker.displayRecognitions rs)
        <= List.length rs + 3)%nat.
Proof.
  intros st rs s H. unfold content in H.
  destruct (Index.loading st); [discriminate|].
  destruct (shown_error (Index.error st)); [discriminate|].
  destruct (Index.recognitions st) as [|r rest] eqn:Hrs; [discriminate|].
  injection H as <- <-.
  split; [reflexivity|]. split; [discriminate|]. split; [reflexivity|]. split.
  - intros ch sh. apply Ticker.reachable_mount. discriminate.
  - unfold Ticker.displayRecognitions, Ticker.duplicateCount, Ticker.slice.
    rewrite length_app, length_firstn, length_skipn. cbn [List.length]. lia.
Qed.

(** The witness: the page after a load that returned one record. *)
Lemma page_ticker_input_witness :
  [reshape Sample.bonus_BD]
  = Index.recognitions
      (Index.fetchRecognitions (Returned [reshape Sample.bonus_BD]) Index.initial)
  /\ [reshape Sample.bonus_BD] <> [] /\ 25 = 25
  /\ (forall clientHeight scrollHeight : Q,
        Ticker.reachable
          (Ticker.mount [reshape Sample.bonus_BD] 25 clientHeight scrollHeight))
  /\ (List.length [reshape Sample.bonus_BD]
      < List.length (Ticker.displayRecognitions [reshape Sample.bonus_BD])
      <= List.length [reshape Sample.bonus_BD] + 3)%nat.
Proof.
  apply (page_ticker_input
           (Index.fetchRecognitions (Returned [reshape Sample.bonus_BD])
                                    Index.initial)).
  reflexivity.
Defined.

End PageFacts.

(** ** Ticker controller: callbacks, restarts and runs of frames *)

Ltac by_evaluation := vm_compute; first [exact I | discriminate].

Ltac reachable_by_events :=
  repeat first
    [ apply Ticker.reachable_mount; by_evaluation
    | apply Ticker.reachable_step; [| by_evaluation] ].

Section TickerRuns.
Import Ticker.

(** X8. In every reachable state at most one frame callback is registered, and
    one is exactly when the content overflows the container; it is the one
    [animationRef] names, its handle is not 0, so that the cleanup's test
    lets the cancellation through, and it captured the current speed and
    content height. *)
Theorem reachable_single_callback :
  forall st : State,
    reachable st ->
    (List.length (frames st) <= 1)%nat
    /\ (frames st <> [] <-> containerHeight st < contentHeight st)
    /\ (forall (h : nat) (c : Closure),
          In (h, c) (frames st) ->
          animationRef st = Some h /\ h <> 0%nat /\ (h < next_handle st)%nat
          /\ c_speed c == speed st
          /\ c_contentHeight c == contentHeight st).
Proof.
  intros st Hr.
  destruct (reachable_invariant st Hr)
    as (_ & _ & _ & [(Hf & _ & Hfit)|(h & c & Hf & Ha & Hh & _ & Hcs & Hcc & Hov)]);
    rewrite Hf.
  - split; [cbn; lia|]. split; [split; [congruence | lra]|].
    intros h c [].
  - split; [cbn; lia|]. split; [split; [auto | discriminate]|].
    intros h' c' [Heq|[]]. injection Heq as <- <-.
    repeat split; auto; lia.
Qed.

(** The witness: the one callback of [scrolled]. *)
Lemma reachable_single_callback_witness :
  (List.length (frames scrolled) <= 1)%nat
  /\ (frames scrolled <> [] <-> containerHeight scrolled < contentHeight scrolled)
  /\ (forall (h : nat) (c : Closure),
        In (h, c) (frames scrolled) ->
        animationRef scrolled = Some h /\ h <> 0%nat
        /\ (h < next_handle scrolled)%nat
        /\ c_speed c == speed scrolled
        /\ c_contentHeight c == contentHeight scrolled).
Proof.
  apply (reachable_single_callback scrolled).
  unfold scrolled, overflowing. cbn [run fold_left]. reachable_by_events.
Defined.

Lemma deps_changed_false (old new : State) :
  contentHeight new == contentHeight old ->
  containerHeight new == containerHeight old ->
  speed new == speed old ->
  deps_changed old new = false.
Proof.
  intros H1 H2 H3. unfold deps_changed.
  assert (E1 : Qeq_bool (contentHeight old) (contentHeight new) = true)
    by (apply Qeq_bool_iff; lra).
  assert (E2 : Qeq_bool (containerHeight old) (containerHeight new) = true)
    by (apply Qeq_bool_iff; lra).
  assert (E3 : Qeq_bool (speed old) (speed new) = true)
    by (apply Qeq_bool_iff; lra).
  rewrite E1, E2, E3. reflexivity.
Qed.

(** X9. A measurement that finds both extents as they were, after a resize or
    after a change of the input sequence, and a speed prop equal to the
    current one leave the animation alone: the registered callback, its
    handle, the offset and the last-frame timestamp are untouched. *)
Theorem unchanged_dependencies_keep_callback :
  forall (st : State) (e : Event),
    match e with
    | Frame _ => False
    | Resize clientHeight scrollHeight
    | SetRecognitions _ clientHeight scrollHeight =>
        clientHeight == containerHeight st /\ scrollHeight == contentHeight st
    | SetSpeed s => s == speed st
    end ->
    frames (step e st) = frames st
    /\ animationRef (step e st) = animationRef st
    /\ next_handle (step e st) = next_handle st
    /\ scrollPosition (step e st) = scrollPosition st
    /\ lastTimeRef (step e st) = lastTimeRef st.
Proof.
  intros st e H.
  destruct e as [ts|ch sh|rs ch sh|s]; cbn [step]; [destruct H| | |].
  - destruct H as [Hc Hh]. unfold updateDimensions, commit.
    rewrite deps_changed_false; [repeat split | exact Hh | exact Hc | reflexivity].
  - destruct H as [Hc Hh]. unfold updateDimensions, commit.
    rewrite deps_changed_false; [repeat split | exact Hh | exact Hc | reflexivity].
  - unfold commit.
    rewrite deps_changed_false; [repeat split | reflexivity | reflexivity | exact H].
Qed.

(** The witness: [scrolled] measured again at container 5 and content 10. *)
Lemma unchanged_dependencies_keep_callback_witness :
  frames (step (Resize 5 10) scrolled) = frames scrolled
  /\ animationRef (step (Resize 5 10) scrolled) = animationRef scrolled
  /\ next_handle (step (Resize 5 10) scrolled) = next_handle scrolled
  /\ scrollPosition (step (Resize 5 10) scrolled) = scrollPosition scrolled
  /\ lastTimeRef (step (Resize 5 10) scrolled) = lastTimeRef scrolled.
Proof.
  apply (unchanged_dependencies_keep_callback scrolled (Resize 5 10)).
  split; vm_compute; reflexivity.
Defined.

Lemma deps_changed_speed (st : State) (s : Q) :
  ~ s == speed st -> deps_changed st (set_speed s st) = true.
Proof.
  intro H. unfold deps_changed. cbn [speed set_speed].
  destruct (Qeq_bool (speed st) s) eqn:E.
  - apply Qeq_bool_iff in E. exfalso. apply H. lra.
  - rewrite andb_false_r. reflexivity.
Qed.

(** X10. A change of the speed prop cancels the callback in flight and, when
    the content overflows the container, registers one that has captured
    the new speed; the extents, the offset and the last-frame timestamp
    stay as they were. *)
Theorem speed_change_restarts :
  forall (st : State) (s : Q),
    reachable st -> 0 <= s -> ~ s == speed st ->
    cancelled st (step (SetSpeed s) st)
    /\ speed (step (SetSpeed s) st) = s
    /\ containerHeight (step (SetSpeed s) st) = containerHeight st
    /\ contentHeight (step (SetSpeed s) st) = contentHeight st
    /\ scrollPosition (step (SetSpeed s) st) = scrollPosition st
    /\ lastTimeRef (step (SetSpeed s) st) = lastTimeRef st
    /\ (containerHeight st < contentHeight st ->
        exists (h : nat) (c : Closure),
          frames (step (SetSpeed s) st) = [(h, c)] /\ c_speed c == s
          /\ c_contentHeight c == contentHeight st)
    /\ (contentHeight st <= containerHeight st ->
        frames (step (SetSpeed s) st) = []).
Proof.
  intros st s Hr Hs Hneq. cbn [step].
  destruct (commit_spec st (set_speed s st) (reachable_invariant st Hr))
    as (Hinv & (_ & V2 & V3 & V4 & V5 & V6) & Hcan); try reflexivity.
  { exact Hs. }
  cbn [speed scrollPosition containerHeight contentHeight lastTimeRef set_speed]
    in V2, V3, V4, V5, V6.
  split; [exact (Hcan (deps_changed_speed st s Hneq))|].
  do 5 (split; [assumption|]).
  destruct Hinv
    as (_ & _ & _ & [(Hf & _ & Hfit)|(h & c & Hf & _ & _ & _ & Hcs & Hcc & Hov)]);
    rewrite V4, V5 in *; split.
  - intro Hov. lra.
  - intros _. exact Hf.
  - intros _. exists h, c. rewrite V2 in Hcs. auto.
  - intro Hfit. lra.
Qed.

(** The witness: [scrolled] slowed down from 1000 to 30 px/s. *)
Lemma speed_change_restarts_witness :
  cancelled scrolled (step (SetSpeed 30) scrolled)
  /\ speed (step (SetSpeed 30) scrolled) = 30
  /\ containerHeight (step (SetSpeed 30) scrolled) = containerHeight scrolled
  /\ contentHeight (step (SetSpeed 30) scrolled) = contentHeight scrolled
  /\ scrollPosition (step (SetSpeed 30) scrolled) = scrollPosition scrolled
  /\ lastTimeRef (step (SetSpeed 30) scrolled) = lastTimeRef scrolled
  /\ (containerHeight scrolled < contentHeight scrolled ->
      exists (h : nat) (c : Closure),
        frames (step (SetSpeed 30) scrolled) = [(h, c)] /\ c_speed c == 30
        /\ c_contentHeight c == contentHeight scrolled)
  /\ (contentHeight scrolled <= containerHeight scrolled ->
      frames (step (SetSpeed 30) scrolled) = []).
Proof.
  apply (speed_change_restarts scrolled 30).
  - unfold scrolled, overflowing. cbn [run fold_left]. reachable_by_events.
  - vm_compute. discriminate.
  - vm_compute. discriminate.
Defined.

End TickerRuns.

Section TickerFrames.
Import Ticker.

Lemma frame_below_extent (st : State) (timestamp : Q) :
  reachable st ->
  containerHeight st < contentHeight st ->
  scrollPosition st < contentHeight st ->
  scrollPosition (run_frame timestamp st)
  == scrollPosition st + speed st * delta timestamp st / 1000
  /\ lastTimeRef (run_frame timestamp st) = Some timestamp
  /\ speed (run_frame timestamp st) = speed st
  /\ containerHeight (run_frame timestamp st) = containerHeight st
  /\ contentHeight (run_frame timestamp st) = contentHeight st.
Proof.
  intros Hr Hov Hp.
  destruct (reachable_animating st Hr Hov)
    as (h & c & Hf & _ & _ & _ & Hcs & Hcc & _).
  rewrite (run_frame_animating _ _ _ _ Hf). cbn.
  assert (Hw : wraps c st = false) by (apply wraps_false; lra).
  rewrite Hw. unfold pixelsToScroll. split; [rewrite Hcs; field|].
  repeat split.
Qed.

(** X12. Before any frame the last-frame timestamp is unset.  A frame that
    finds it unset, or 0, counts no elapsed time: while the content
    overflows and the offset is short of the content extent, it leaves the
    offset where it is and records its timestamp.  A frame stamped 0 thus
    leaves the timestamp falsy, and the frame after it counts no elapsed
    time either. *)
Theorem first_frame_keeps_offset :
  (forall (rs : list Recognition.t) (s clientHeight scrollHeight : Q),
      lastTimeRef (mount rs s clientHeight scrollHeight) = None)
  /\ (forall (st : State) (timestamp : Q),
         reachable st ->
         containerHeight st < contentHeight st ->
         scrollPosition st < contentHeight st ->
         truthy (lastTimeRef st) = false ->
         scrollPosition (step (Frame timestamp) st) == scrollPosition st
         /\ lastTimeRef (step (Frame timestamp) st) = Some timestamp
         /\ (timestamp == 0 ->
             truthy (lastTimeRef (step (Frame timestamp) st)) = false)).
Proof.
  split.
  - intros rs s ch sh. unfold mount, updateDimensions, commit, animation_cleanup.
    change (animation_effect (initial rs s))
      with (set_cleanup false (initial rs s)).
    cbn [cleanup set_cleanup setContentHeight setContainerHeight initial].
    destruct (deps_changed _ _); [|reflexivity].
    unfold animation_effect. destruct (Qle_bool _ _); reflexivity.
  - intros st ts Hr Hov Hp Hfalsy. cbn [step].
    destruct (frame_below_extent st ts Hr Hov Hp) as (Hp' & Hl' & _).
    rewrite (delta_first_frame ts st Hfalsy) in Hp'.
    split; [rewrite Hp'; field|]. split; [exact Hl'|].
    intro H0. rewrite Hl'. unfold truthy.
    apply Qeq_bool_iff in H0. rewrite H0. reflexivity.
Qed.

(** The witness: the first frame of [overflowing], at 1 ms. *)
Lemma first_frame_keeps_offset_witness :
  scrollPosition (step (Frame 1) overflowing) == scrollPosition overflowing
  /\ lastTimeRef (step (Frame 1) overflowing) = Some 1
  /\ (1 == 0 -> truthy (lastTimeRef (step (Frame 1) overflowing)) = false).
Proof.
  apply (proj2 first_frame_keeps_offset overflowing 1).
  - unfold overflowing. reachable_by_events.
  - vm_compute. reflexivity.
  - vm_compute. reflexivity.
  - reflexivity.
Defined.

(** X13. The display list continues the input cyclically: the card at position
    [i] is the input's card at position [i mod length], so every card shown
    is one of the input and the cards after the input repeat its first
    ones; an empty input is displayed as an empty list. *)
Theorem display_list_is_cyclic :
  forall (rs : list Recognition.t) (i : nat),
    (i < List.length (displayRecognitions rs))%nat ->
    nth_error (displayRecognitions rs) i
    = nth_error rs (i mod List.length rs).
Proof.
  intros rs i Hi. unfold displayRecognitions, duplicateCount in *.
  rewrite slice_from_0 in *. rewrite length_app, length_firstn in Hi.
  destruct (Nat.lt_ge_cases i (List.length rs)) as [Hlt|Hge].
  - rewrite nth_error_app1 by exact Hlt. rewrite Nat.mod_small by exact Hlt.
    reflexivity.
  - rewrite nth_error_app2 by exact Hge. rewrite nth_error_firstn.
    assert (Hsmall : (i - List.length rs < Nat.min 3 (List.length rs))%nat) by lia.
    apply Nat.ltb_lt in Hsmall. rewrite Hsmall. f_equal.
    apply Nat.mod_unique with (q := 1%nat); lia.
Qed.

(** The witness: the fourth card of a two-card input is its second card. *)
Lemma display_list_is_cyclic_witness :
  nth_error (displayRecognitions [FeedLoader.reshape Sample.bonus_BD;
                                  FeedLoader.reshape Sample.bonus_US]) 3
  = nth_error [FeedLoader.reshape Sample.bonus_BD;
               FeedLoader.reshape Sample.bonus_US]
              (3 mod List.length [FeedLoader.reshape Sample.bonus_BD;
                                  FeedLoader.reshape Sample.bonus_US]).
Proof.
  apply (display_list_is_cyclic [FeedLoader.reshape Sample.bonus_BD;
                                 FeedLoader.reshape Sample.bonus_US] 3).
  cbn. lia.
Defined.

End TickerFrames.

(** ** Card renderer: spaces, words and upper-casing *)

Section CardWords.
Import Card.
Import Names.

Lemma word_initials_from_space (s1 s2 : string) :
  forall at_start : bool,
    word_initials_from at_start (s1 ++ String " " s2)
    = (word_initials_from at_start s1 ++ word_initials_from true s2)%string.
Proof.
  induction s1 as [|c s1 IH]; intro b.
  - reflexivity.
  - cbn [String.append word_initials_from].
    destruct (Ascii.eqb c " "); [apply IH|].
    destruct b; cbn [String.append]; rewrite IH; reflexivity.
Qed.

Lemma word_initials_from_nil_r (s : string) :
  forall at_start : bool,
    word_initials_from at_start (s ++ " ") = word_initials_from at_start s.
Proof.
  intro b. rewrite word_initials_from_space. cbn [word_initials_from].
  generalize (word_initials_from b s). intro w.
  induction w as [|c w IH]; cbn [String.append]; [reflexivity | rewrite IH; reflexivity].
Qed.

Lemma getInitials_by_scan (toUpperCase : string -> string) (name : string) :
  getInitials toUpperCase name = truncate 2 (toUpperCase (word_initials name)).
Proof.
  unfold getInitials, word_initials.
  rewrite substring_truncate, (proj1 (join_split name)). reflexivity.
Qed.

(** X14. Spaces only separate: the initials of two parts joined by a space are
    taken from the initials of the first part followed by those of the
    second, so a leading space, a trailing space and a doubled space do not
    change the initials. *)
Theorem getInitials_spaces :
  forall (toUpperCase : string -> string) (s1 s2 : string),
    getInitials toUpperCase (s1 ++ String " " s2)%string
    = truncate 2 (toUpperCase (word_initials s1 ++ word_initials s2)%string)
    /\ getInitials toUpperCase (String " " s2) = getInitials toUpperCase s2
    /\ getInitials toUpperCase (s1 ++ " ")%string = getInitials toUpperCase s1
    /\ getInitials toUpperCase (s1 ++ String " " (String " " s2))%string
       = getInitials toUpperCase (s1 ++ String " " s2)%string.
Proof.
  intros up s1 s2.
  rewrite !getInitials_by_scan. unfold word_initials.
  rewrite word_initials_from_nil_r, !word_initials_from_space.
  cbn [word_initials_from Ascii.eqb]. repeat split.
Qed.










Lemma concat_split_cons (sep c : ascii) (w : string) (ws : list string) :
  String.concat (String sep EmptyString) (String c w :: ws)
  = String c (String.concat (String sep EmptyString) (w :: ws)).
Proof. destruct ws; reflexivity. Qed.

Lemma occurrences_initials (s : string) :
  forall at_start : bool,
    (String.length (word_initials_from at_start s)
     <= (if at_start then 1 else 0) + occurrences " " s)%nat.
Proof.
  induction s as [|c s IH]; intro b; cbn [word_initials_from occurrences].
  - destruct b; cbn; lia.
  - destruct (Ascii.eqb c " ").
    + specialize (IH true). cbn beta iota in IH. destruct b; lia.
    + destruct b; cbn [String.length]; specialize (IH false);
        cbn beta iota in IH; lia.
Qed.

Lemma length_split (sep : ascii) (s : string) :
  List.length (split sep s) = S (occurrences sep s).
Proof.
  induction s as [|c s IH]; [reflexivity|]. cbn [split occurrences].
  destruct (Ascii.eqb c sep).
  - cbn [List.length]. rewrite IH. reflexivity.
  - destruct (split sep s) as [|w ws] eqn:Hs;
      [exfalso; exact (split_not_nil _ _ Hs)|].
    cbn [List.length] in *. lia.
Qed.

(** X16. Splitting loses nothing: the words of a name, joined again with the
    separator, are the name; there is one word more than there are
    separators, and no word holds a separator.  A name has at most one
    initial per word. *)
Theorem split_words :
  forall (sep : ascii) (s : string),
    String.concat (String sep EmptyString) (split sep s) = s
    /\ List.length (split sep s) = S (occurrences sep s)
    /\ Forall (fun w => occurrences sep w = 0%nat) (split sep s)
    /\ (String.length (word_initials s) <= List.length (split " " s))%nat.
Proof.
  intros sep s. split; [|split; [|split]].
  - induction s as [|c s IH]; [reflexivity|]. cbn [split].
    destruct (Ascii.eqb c sep) eqn:E.
    + apply Ascii.eqb_eq in E. subst c.
      destruct (split sep s) as [|w ws] eqn:Hs;
        [exfalso; exact (split_not_nil _ _ Hs)|].
      change (String.concat (String sep EmptyString) (EmptyString :: w :: ws))
        with (String sep (String.concat (String sep EmptyString) (w :: ws))).
      rewrite IH. reflexivity.
    + destruct (split sep s) as [|w ws] eqn:Hs;
        [exfalso; exact (split_not_nil _ _ Hs)|].
      rewrite concat_split_cons, IH. reflexivity.
  - apply length_split.
  - induction s as [|c s IH]; [repeat constructor|]. cbn [split].
    destruct (Ascii.eqb c sep) eqn:E.
    + constructor; [reflexivity | exact IH].
    + destruct (split sep s) as [|w ws] eqn:Hs;
        [exfalso; exact (split_not_nil _ _ Hs)|].
      inversion IH as [|w' ws' Hw Hws]; subst.
      constructor; [|exact Hws]. cbn [occurrences]. rewrite E, Hw. reflexivity.
  - rewrite length_split. pose proof (occurrences_initials s true) as H.
    cbn beta iota in H. unfold word_initials. lia.
Qed.

End CardWords.
